(** * NooDS: the Wifi peripheral (src/wifi.h) and the desktop canvas
    (src/desktop/noo_canvas.cpp)

    A shallow embedding of class [Wifi]: its fields with their in-class
    initializers, the inline register read methods and the scheduling
    predicate, followed by the operations that wifi.h only declares; and
    of the event handlers of class [NooCanvas]. *)

From Stdlib Require Import ZArith List Bool Lia.
From stdpp Require Import base option list gmap.

Local Open Scope Z_scope.

(** ** Data model *)

(** [Core *] and [Wifi *]: every console owns exactly one peripheral, so a
    peripheral is named by the handle of the console that owns it. *)
Definition CoreId : Type := nat.

(** The fields of class [Wifi] (wifi.h, lines 112-159).  A [uint16_t] is a
    [Z] (stores truncate with [u16]), an array is a list, [std::vector] is a
    list.  The [std::mutex] carries no data in a sequential model. *)
Record Wifi : Type := mkWifi {
  core : CoreId;
  connections : list CoreId;
  packets : list (list Z);
  scheduled : bool;
  bbRegisters : list Z;
  wModeWep : Z;
  wIrf : Z;
  wIe : Z;
  wMacaddr : list Z;
  wBssid : list Z;
  wAidFull : Z;
  wRxcnt : Z;
  wPowerstate : Z;
  wPowerforce : Z;
  wRxbufBegin : Z;
  wRxbufEnd : Z;
  wRxbufWrcsr : Z;
  wRxbufWrAddr : Z;
  wRxbufRdAddr : Z;
  wRxbufReadcsr : Z;
  wRxbufGap : Z;
  wRxbufGapdisp : Z;
  wTxbufLoc : list Z;
  wBeaconInt : Z;
  wTxreqRead : Z;
  wUsCountcnt : Z;
  wUsComparecnt : Z;
  wPreBeacon : Z;
  wBeaconCount : Z;
  wRxbufCount : Z;
  wTxbufWrAddr : Z;
  wTxbufCount : Z;
  wTxbufGap : Z;
  wTxbufGapdisp : Z;
  wPostBeacon : Z;
  wBbWrite : Z;
  wBbRead : Z;
  wConfig : list Z
}.

(** Truncation of a value stored into a [uint16_t]. *)
Definition u16 (x : Z) : Z := Z.land x 0xFFFF.

(** [a[index]] for an [int index]; outside the array the source has
    undefined behaviour, which is [None] here. *)
Definition at_index (a : list Z) (index : Z) : option Z :=
  if 0 <=? index then a !! Z.to_nat index else None.

(** The value an indexed read method returns: the cell when there is one
    (0 stands for the undefined out-of-range read). *)
Definition cell (a : list Z) (index : Z) : Z := default 0 (at_index a index).

(** The state the in-class member initializers give a new instance whose
    constructor received [c] (wifi.h, lines 112-159; the constructor is
    declared at line 32 and defined out of line). *)
Definition Wifi_init (c : CoreId) : Wifi := {|
  core := c;
  connections := [];
  packets := [];
  scheduled := false;
  bbRegisters := replicate 0x100 0;
  wModeWep := 0;
  wIrf := 0;
  wIe := 0;
  wMacaddr := replicate 3 0;
  wBssid := replicate 3 0;
  wAidFull := 0;
  wRxcnt := 0;
  wPowerstate := 0x0200;
  wPowerforce := 0;
  wRxbufBegin := 0;
  wRxbufEnd := 0;
  wRxbufWrcsr := 0;
  wRxbufWrAddr := 0;
  wRxbufRdAddr := 0;
  wRxbufReadcsr := 0;
  wRxbufGap := 0;
  wRxbufGapdisp := 0;
  wTxbufLoc := replicate 5 0;
  wBeaconInt := 0;
  wTxreqRead := 0x0010;
  wUsCountcnt := 0;
  wUsComparecnt := 0;
  wPreBeacon := 0;
  wBeaconCount := 0;
  wRxbufCount := 0;
  wTxbufWrAddr := 0;
  wTxbufCount := 0;
  wTxbufGap := 0;
  wTxbufGapdisp := 0;
  wPostBeacon := 0;
  wBbWrite := 0;
  wBbRead := 0;
  wConfig :=
    [ 0x0048; 0x4840; 0x0000; 0x0000; 0x0142;
      0x8064; 0x0000; 0x2443; 0x0042; 0x0016;
      0x0016; 0x0016; 0x162C; 0x0204; 0x0058 ]
|}.

(** ** The register bank by name *)

(** One name per 16-bit storage cell of the class. *)
Inductive Reg : Type :=
| RegWModeWep | RegWIrf | RegWIe
| RegWMacaddr (index : Z) | RegWBssid (index : Z)
| RegWAidFull | RegWRxcnt | RegWPowerstate | RegWPowerforce
| RegWRxbufBegin | RegWRxbufEnd | RegWRxbufWrcsr | RegWRxbufWrAddr
| RegWRxbufRdAddr | RegWRxbufReadcsr | RegWRxbufGap | RegWRxbufGapdisp
| RegWTxbufLoc (index : Z)
| RegWBeaconInt | RegWTxreqRead | RegWUsCountcnt | RegWUsComparecnt
| RegWPreBeacon | RegWBeaconCount | RegWRxbufCount
| RegWTxbufWrAddr | RegWTxbufCount | RegWTxbufGap | RegWTxbufGapdisp
| RegWPostBeacon | RegWBbWrite | RegWBbRead
| RegWConfig (index : Z).

#[global] Instance Reg_eq_dec : EqDecision Reg.
Proof. solve_decision. Defined.

(** The content of a cell; [None] when an index names no cell. *)
Definition get (r : Reg) (st : Wifi) : option Z :=
  match r with
  | RegWModeWep => Some (wModeWep st)
  | RegWIrf => Some (wIrf st)
  | RegWIe => Some (wIe st)
  | RegWMacaddr i => at_index (wMacaddr st) i
  | RegWBssid i => at_index (wBssid st) i
  | RegWAidFull => Some (wAidFull st)
  | RegWRxcnt => Some (wRxcnt st)
  | RegWPowerstate => Some (wPowerstate st)
  | RegWPowerforce => Some (wPowerforce st)
  | RegWRxbufBegin => Some (wRxbufBegin st)
  | RegWRxbufEnd => Some (wRxbufEnd st)
  | RegWRxbufWrcsr => Some (wRxbufWrcsr st)
  | RegWRxbufWrAddr => Some (wRxbufWrAddr st)
  | RegWRxbufRdAddr => Some (wRxbufRdAddr st)
  | RegWRxbufReadcsr => Some (wRxbufReadcsr st)
  | RegWRxbufGap => Some (wRxbufGap st)
  | RegWRxbufGapdisp => Some (wRxbufGapdisp st)
  | RegWTxbufLoc i => at_index (wTxbufLoc st) i
  | RegWBeaconInt => Some (wBeaconInt st)
  | RegWTxreqRead => Some (wTxreqRead st)
  | RegWUsCountcnt => Some (wUsCountcnt st)
  | RegWUsComparecnt => Some (wUsComparecnt st)
  | RegWPreBeacon => Some (wPreBeacon st)
  | RegWBeaconCount => Some (wBeaconCount st)
  | RegWRxbufCount => Some (wRxbufCount st)
  | RegWTxbufWrAddr => Some (wTxbufWrAddr st)
  | RegWTxbufCount => Some (wTxbufCount st)
  | RegWTxbufGap => Some (wTxbufGap st)
  | RegWTxbufGapdisp => Some (wTxbufGapdisp st)
  | RegWPostBeacon => Some (wPostBeacon st)
  | RegWBbWrite => Some (wBbWrite st)
  | RegWBbRead => Some (wBbRead st)
  | RegWConfig i => at_index (wConfig st) i
  end.

(** ** Scheduling predicate (wifi.h, line 37) *)

Definition empty {A : Type} (v : list A) : bool :=
  match v with [] => true | _ :: _ => false end.

Definition shouldSchedule (st : Wifi) : bool :=
  (negb (empty (connections st)) || negb (wUsCountcnt st =? 0))
  && negb (scheduled st).

(** ** Inline register read methods (wifi.h, lines 41-72)

    The methods are not [const], so each is a state transformer returning
    the value read and the state it leaves. *)

Definition readWModeWep (st : Wifi) : Z * Wifi := (wModeWep st, st).
Definition readWIrf (st : Wifi) : Z * Wifi := (wIrf st, st).
Definition readWIe (st : Wifi) : Z * Wifi := (wIe st, st).
Definition readWMacaddr (index : Z) (st : Wifi) : Z * Wifi :=
  (cell (wMacaddr st) index, st).
Definition readWBssid (index : Z) (st : Wifi) : Z * Wifi :=
  (cell (wBssid st) index, st).
Definition readWAidFull (st : Wifi) : Z * Wifi := (wAidFull st, st).
Definition readWRxcnt (st : Wifi) : Z * Wifi := (wRxcnt st, st).
Definition readWPowerstate (st : Wifi) : Z * Wifi := (wPowerstate st, st).
Definition readWPowerforce (st : Wifi) : Z * Wifi := (wPowerforce st, st).
Definition readWRxbufBegin (st : Wifi) : Z * Wifi := (wRxbufBegin st, st).
Definition readWRxbufEnd (st : Wifi) : Z * Wifi := (wRxbufEnd st, st).
Definition readWRxbufWrcsr (st : Wifi) : Z * Wifi :=
  (u16 (Z.shiftr (wRxbufWrcsr st) 1), st).
Definition readWRxbufWrAddr (st : Wifi) : Z * Wifi := (wRxbufWrAddr st, st).
Definition readWRxbufRdAddr (st : Wifi) : Z * Wifi := (wRxbufRdAddr st, st).
Definition readWRxbufReadcsr (st : Wifi) : Z * Wifi := (wRxbufReadcsr st, st).
Definition readWRxbufGap (st : Wifi) : Z * Wifi := (wRxbufGap st, st).
Definition readWRxbufGapdisp (st : Wifi) : Z * Wifi := (wRxbufGapdisp st, st).
Definition readWRxbufCount (st : Wifi) : Z * Wifi := (wRxbufCount st, st).
Definition readWTxbufWrAddr (st : Wifi) : Z * Wifi := (wTxbufWrAddr st, st).
Definition readWTxbufCount (st : Wifi) : Z * Wifi := (wTxbufCount st, st).
Definition readWTxbufGap (st : Wifi) : Z * Wifi := (wTxbufGap st, st).
Definition readWTxbufGapdisp (st : Wifi) : Z * Wifi := (wTxbufGapdisp st, st).
Definition readWTxbufLoc (index : Z) (st : Wifi) : Z * Wifi :=
  (cell (wTxbufLoc st) index, st).
Definition readWBeaconInt (st : Wifi) : Z * Wifi := (wBeaconInt st, st).
Definition readWTxreqRead (st : Wifi) : Z * Wifi := (wTxreqRead st, st).
Definition readWUsCountcnt (st : Wifi) : Z * Wifi := (wUsCountcnt st, st).
Definition readWUsComparecnt (st : Wifi) : Z * Wifi := (wUsComparecnt st, st).
Definition readWPreBeacon (st : Wifi) : Z * Wifi := (wPreBeacon st, st).
Definition readWBeaconCount (st : Wifi) : Z * Wifi := (wBeaconCount st, st).
Definition readWConfig (index : Z) (st : Wifi) : Z * Wifi :=
  (cell (wConfig st) index, st).
Definition readWPostBeacon (st : Wifi) : Z * Wifi := (wPostBeacon st, st).
Definition readWBbRead (st : Wifi) : Z * Wifi := (wBbRead st, st).

(** The inline read methods as one interface: a method with its arguments. *)
Inductive ReadMethod : Type :=
| ReadWModeWep | ReadWIrf | ReadWIe
| ReadWMacaddr (index : Z) | ReadWBssid (index : Z)
| ReadWAidFull | ReadWRxcnt | ReadWPowerstate | ReadWPowerforce
| ReadWRxbufBegin | ReadWRxbufEnd | ReadWRxbufWrcsr | ReadWRxbufWrAddr
| ReadWRxbufRdAddr | ReadWRxbufReadcsr | ReadWRxbufGap | ReadWRxbufGapdisp
| ReadWRxbufCount | ReadWTxbufWrAddr | ReadWTxbufCount | ReadWTxbufGap
| ReadWTxbufGapdisp | ReadWTxbufLoc (index : Z)
| ReadWBeaconInt | ReadWTxreqRead | ReadWUsCountcnt | ReadWUsComparecnt
| ReadWPreBeacon | ReadWBeaconCount | ReadWConfig (index : Z)
| ReadWPostBeacon | ReadWBbRead.

Definition call (m : ReadMethod) : Wifi -> Z * Wifi :=
  match m with
  | ReadWModeWep => readWModeWep
  | ReadWIrf => readWIrf
  | ReadWIe => readWIe
  | ReadWMacaddr i => readWMacaddr i
  | ReadWBssid i => readWBssid i
  | ReadWAidFull => readWAidFull
  | ReadWRxcnt => readWRxcnt
  | ReadWPowerstate => readWPowerstate
  | ReadWPowerforce => readWPowerforce
  | ReadWRxbufBegin => readWRxbufBegin
  | ReadWRxbufEnd => readWRxbufEnd
  | ReadWRxbufWrcsr => readWRxbufWrcsr
  | ReadWRxbufWrAddr => readWRxbufWrAddr
  | ReadWRxbufRdAddr => readWRxbufRdAddr
  | ReadWRxbufReadcsr => readWRxbufReadcsr
  | ReadWRxbufGap => readWRxbufGap
  | ReadWRxbufGapdisp => readWRxbufGapdisp
  | ReadWRxbufCount => readWRxbufCount
  | ReadWTxbufWrAddr => readWTxbufWrAddr
  | ReadWTxbufCount => readWTxbufCount
  | ReadWTxbufGap => readWTxbufGap
  | ReadWTxbufGapdisp => readWTxbufGapdisp
  | ReadWTxbufLoc i => readWTxbufLoc i
  | ReadWBeaconInt => readWBeaconInt
  | ReadWTxreqRead => readWTxreqRead
  | ReadWUsCountcnt => readWUsCountcnt
  | ReadWUsComparecnt => readWUsComparecnt
  | ReadWPreBeacon => readWPreBeacon
  | ReadWBeaconCount => readWBeaconCount
  | ReadWConfig i => readWConfig i
  | ReadWPostBeacon => readWPostBeacon
  | ReadWBbRead => readWBbRead
  end.

(** The cell a read method reports. *)
Definition source_of (m : ReadMethod) : Reg :=
  match m with
  | ReadWModeWep => RegWModeWep
  | ReadWIrf => RegWIrf
  | ReadWIe => RegWIe
  | ReadWMacaddr i => RegWMacaddr i
  | ReadWBssid i => RegWBssid i
  | ReadWAidFull => RegWAidFull
  | ReadWRxcnt => RegWRxcnt
  | ReadWPowerstate => RegWPowerstate
  | ReadWPowerforce => RegWPowerforce
  | ReadWRxbufBegin => RegWRxbufBegin
  | ReadWRxbufEnd => RegWRxbufEnd
  | ReadWRxbufWrcsr => RegWRxbufWrcsr
  | ReadWRxbufWrAddr => RegWRxbufWrAddr
  | ReadWRxbufRdAddr => RegWRxbufRdAddr
  | ReadWRxbufReadcsr => RegWRxbufReadcsr
  | ReadWRxbufGap => RegWRxbufGap
  | ReadWRxbufGapdisp => RegWRxbufGapdisp
  | ReadWRxbufCount => RegWRxbufCount
  | ReadWTxbufWrAddr => RegWTxbufWrAddr
  | ReadWTxbufCount => RegWTxbufCount
  | ReadWTxbufGap => RegWTxbufGap
  | ReadWTxbufGapdisp => RegWTxbufGapdisp
  | ReadWTxbufLoc i => RegWTxbufLoc i
  | ReadWBeaconInt => RegWBeaconInt
  | ReadWTxreqRead => RegWTxreqRead
  | ReadWUsCountcnt => RegWUsCountcnt
  | ReadWUsComparecnt => RegWUsComparecnt
  | ReadWPreBeacon => RegWPreBeacon
  | ReadWBeaconCount => RegWBeaconCount
  | ReadWConfig i => RegWConfig i
  | ReadWPostBeacon => RegWPostBeacon
  | ReadWBbRead => RegWBbRead
  end.

(** What the method makes of the stored value: the write cursor is reported
    shifted right by one, every other register as stored. *)
Definition view (m : ReadMethod) (stored : Z) : Z :=
  match m with
  | ReadWRxbufWrcsr => u16 (Z.shiftr stored 1)
  | _ => stored
  end.

(** ** Assignment to a field *)

(** [map_regs f] replaces the content [v] of every cell [r] by [f r v] and
    keeps every other field. *)
Definition map_regs (f : Reg -> Z -> Z) (st : Wifi) : Wifi := {|
  core := core st;
  connections := connections st;
  packets := packets st;
  scheduled := scheduled st;
  bbRegisters := bbRegisters st;
  wModeWep := f RegWModeWep (wModeWep st);
  wIrf := f RegWIrf (wIrf st);
  wIe := f RegWIe (wIe st);
  wMacaddr := imap (fun i => f (RegWMacaddr (Z.of_nat i))) (wMacaddr st);
  wBssid := imap (fun i => f (RegWBssid (Z.of_nat i))) (wBssid st);
  wAidFull := f RegWAidFull (wAidFull st);
  wRxcnt := f RegWRxcnt (wRxcnt st);
  wPowerstate := f RegWPowerstate (wPowerstate st);
  wPowerforce := f RegWPowerforce (wPowerforce st);
  wRxbufBegin := f RegWRxbufBegin (wRxbufBegin st);
  wRxbufEnd := f RegWRxbufEnd (wRxbufEnd st);
  wRxbufWrcsr := f RegWRxbufWrcsr (wRxbufWrcsr st);
  wRxbufWrAddr := f RegWRxbufWrAddr (wRxbufWrAddr st);
  wRxbufRdAddr := f RegWRxbufRdAddr (wRxbufRdAddr st);
  wRxbufReadcsr := f RegWRxbufReadcsr (wRxbufReadcsr st);
  wRxbufGap := f RegWRxbufGap (wRxbufGap st);
  wRxbufGapdisp := f RegWRxbufGapdisp (wRxbufGapdisp st);
  wTxbufLoc := imap (fun i => f (RegWTxbufLoc (Z.of_nat i))) (wTxbufLoc st);
  wBeaconInt := f RegWBeaconInt (wBeaconInt st);
  wTxreqRead := f RegWTxreqRead (wTxreqRead st);
  wUsCountcnt := f RegWUsCountcnt (wUsCountcnt st);
  wUsComparecnt := f RegWUsComparecnt (wUsComparecnt st);
  wPreBeacon := f RegWPreBeacon (wPreBeacon st);
  wBeaconCount := f RegWBeaconCount (wBeaconCount st);
  wRxbufCount := f RegWRxbufCount (wRxbufCount st);
  wTxbufWrAddr := f RegWTxbufWrAddr (wTxbufWrAddr st);
  wTxbufCount := f RegWTxbufCount (wTxbufCount st);
  wTxbufGap := f RegWTxbufGap (wTxbufGap st);
  wTxbufGapdisp := f RegWTxbufGapdisp (wTxbufGapdisp st);
  wPostBeacon := f RegWPostBeacon (wPostBeacon st);
  wBbWrite := f RegWBbWrite (wBbWrite st);
  wBbRead := f RegWBbRead (wBbRead st);
  wConfig := imap (fun i => f (RegWConfig (Z.of_nat i))) (wConfig st)
|}.

(** [r = v;] for a cell [r] (nothing is stored when an index names no cell,
    where the source has undefined behaviour). *)
Definition set_reg (r : Reg) (v : Z) (st : Wifi) : Wifi :=
  map_regs (fun r' old => if decide (r' = r) then v else old) st.

(** [connections = v;] *)
Definition set_connections (v : list CoreId) (st : Wifi) : Wifi :=
  mkWifi (core st) v (packets st) (scheduled st) (bbRegisters st)
    (wModeWep st) (wIrf st) (wIe st) (wMacaddr st) (wBssid st) (wAidFull st)
    (wRxcnt st) (wPowerstate st) (wPowerforce st) (wRxbufBegin st)
    (wRxbufEnd st) (wRxbufWrcsr st) (wRxbufWrAddr st) (wRxbufRdAddr st)
    (wRxbufReadcsr st) (wRxbufGap st) (wRxbufGapdisp st) (wTxbufLoc st)
    (wBeaconInt st) (wTxreqRead st) (wUsCountcnt st) (wUsComparecnt st)
    (wPreBeacon st) (wBeaconCount st) (wRxbufCount st) (wTxbufWrAddr st)
    (wTxbufCount st) (wTxbufGap st) (wTxbufGapdisp st) (wPostBeacon st)
    (wBbWrite st) (wBbRead st) (wConfig st).

(** ** Operations that wifi.h declares without a body

    wifi.h declares the write methods, [readWRxbufRdData], [sendInterrupt],
    [addConnection] and [remConnection]; their bodies are in no file of
    the sources.  Each is modelled from the design document, section by
    section. *)

(** The write methods wifi.h declares (lines 75-109), each with its index
    when it has one. *)
Inductive WriteMethod : Type :=
| WriteWModeWep | WriteWIrf | WriteWIe
| WriteWMacaddr (index : Z) | WriteWBssid (index : Z)
| WriteWAidFull | WriteWRxcnt | WriteWPowerstate | WriteWPowerforce
| WriteWRxbufBegin | WriteWRxbufEnd | WriteWRxbufWrAddr | WriteWRxbufRdAddr
| WriteWRxbufReadcsr | WriteWRxbufGap | WriteWRxbufGapdisp
| WriteWTxbufLoc (index : Z)
| WriteWBeaconInt | WriteWTxreqReset | WriteWTxreqSet
| WriteWUsCountcnt | WriteWUsComparecnt | WriteWPreBeacon | WriteWBeaconCount
| WriteWRxbufCount | WriteWTxbufWrAddr | WriteWTxbufCount | WriteWTxbufWrData
| WriteWTxbufGap | WriteWTxbufGapdisp
| WriteWConfig (index : Z)
| WriteWPostBeacon | WriteWBbCnt | WriteWBbWrite | WriteWIrfSet.

(** The three ways in which the design document has a write method store
    into a register. *)
Inductive StoreKind : Type := Assign | ClearBits | SetBits.

(** Modelled from the spec: the body of the register write methods
    (wifi.h, lines 75-109, declarations only).  Section 4.1: a writable
    register is updated by [reg = (reg & ~mask) | (value & mask)]; the
    result is stored into a [uint16_t]. *)
Definition masked (reg mask value : Z) : Z :=
  u16 (Z.lor (Z.land reg (Z.lnot mask)) (Z.land value mask)).

(** Modelled from the spec: the content a register has after the store of
    a write.  [Assign] is the update of section 4.1.  [ClearBits] is the
    acknowledgement of section 4.4, where a write to the flag register
    clears the bits it names, and the reset of request bits of section
    4.2; [SetBits] is the forced set of section 4.4. *)
Definition stored (k : StoreKind) (reg mask value : Z) : Z :=
  match k with
  | Assign => masked reg mask value
  | ClearBits => u16 (Z.land reg (Z.lnot (Z.land value mask)))
  | SetBits => u16 (Z.lor reg (Z.land value mask))
  end.

(** Modelled from the spec: the register a write method stores into, and
    how.  [writeWIrf] acknowledges and [writeWIrfSet] sets flag bits
    (section 4.4); [writeWTxreqReset] clears request bits of [wTxreqRead]
    (section 4.2); every other method named after a register assigns to it
    (section 4.1).  [writeWTxreqSet], [writeWTxbufWrData] and [writeWBbCnt]
    are operations of the buffer engine and the baseband (a transmission
    that clears the request bit again, an append at the TX cursor, an
    indirect transfer; sections 4.1 and 4.2) and have no entry. *)
Definition store_of (m : WriteMethod) : option (StoreKind * Reg) :=
  match m with
  | WriteWModeWep => Some (Assign, RegWModeWep)
  | WriteWIrf => Some (ClearBits, RegWIrf)
  | WriteWIe => Some (Assign, RegWIe)
  | WriteWMacaddr i => Some (Assign, RegWMacaddr i)
  | WriteWBssid i => Some (Assign, RegWBssid i)
  | WriteWAidFull => Some (Assign, RegWAidFull)
  | WriteWRxcnt => Some (Assign, RegWRxcnt)
  | WriteWPowerstate => Some (Assign, RegWPowerstate)
  | WriteWPowerforce => Some (Assign, RegWPowerforce)
  | WriteWRxbufBegin => Some (Assign, RegWRxbufBegin)
  | WriteWRxbufEnd => Some (Assign, RegWRxbufEnd)
  | WriteWRxbufWrAddr => Some (Assign, RegWRxbufWrAddr)
  | WriteWRxbufRdAddr => Some (Assign, RegWRxbufRdAddr)
  | WriteWRxbufReadcsr => Some (Assign, RegWRxbufReadcsr)
  | WriteWRxbufGap => Some (Assign, RegWRxbufGap)
  | WriteWRxbufGapdisp => Some (Assign, RegWRxbufGapdisp)
  | WriteWTxbufLoc i => Some (Assign, RegWTxbufLoc i)
  | WriteWBeaconInt => Some (Assign, RegWBeaconInt)
  | WriteWTxreqReset => Some (ClearBits, RegWTxreqRead)
  | WriteWTxreqSet => None
  | WriteWUsCountcnt => Some (Assign, RegWUsCountcnt)
  | WriteWUsComparecnt => Some (Assign, RegWUsComparecnt)
  | WriteWPreBeacon => Some (Assign, RegWPreBeacon)
  | WriteWBeaconCount => Some (Assign, RegWBeaconCount)
  | WriteWRxbufCount => Some (Assign, RegWRxbufCount)
  | WriteWTxbufWrAddr => Some (Assign, RegWTxbufWrAddr)
  | WriteWTxbufCount => Some (Assign, RegWTxbufCount)
  | WriteWTxbufWrData => None
  | WriteWTxbufGap => Some (Assign, RegWTxbufGap)
  | WriteWTxbufGapdisp => Some (Assign, RegWTxbufGapdisp)
  | WriteWConfig i => Some (Assign, RegWConfig i)
  | WriteWPostBeacon => Some (Assign, RegWPostBeacon)
  | WriteWBbCnt => None
  | WriteWBbWrite => Some (Assign, RegWBbWrite)
  | WriteWIrfSet => Some (SetBits, RegWIrf)
  end.

(** Modelled from the spec: the store of a write method, the state right
    after the register was updated.  What the write then triggers in other
    components (section 4.1: buffer recompute, frame dispatch, baseband
    transfer) comes after this state and is not modelled; a method with no
    entry in [store_of] has no store. *)
Definition write (m : WriteMethod) (mask value : Z) (st : Wifi) : option Wifi :=
  match store_of m with
  | Some (k, r) =>
      match get r st with
      | Some reg => Some (set_reg r (stored k reg mask value) st)
      | None => None
      end
  | None => None
  end.

(** Modelled from the spec: class [Core], which wifi.h only forward
    declares.  A console owns its peripheral; of the rest the peripheral
    consumes two interfaces (sections 3 and 6): the addressable memory
    region under the RX window, and the interrupt controller, whose only
    observable here is how many times the external line was asserted. *)
Record Core : Type := mkCore {
  wifi : Wifi;
  wifiRam : Z -> Z;
  irqAsserted : nat
}.

Definition set_wifi (st : Wifi) (c : Core) : Core :=
  mkCore st (wifiRam c) (irqAsserted c).

(** Modelled from the spec: the step of one advance.  Section 4.2 has the
    read consume "one 16-bit word"; a word occupies two byte offsets. *)
Definition word_size : Z := 2.

(** The gap region [[gapStart, gapStart+gapDisp)] of the RX window. *)
Definition in_gap (st : Wifi) (cursor : Z) : bool :=
  (wRxbufGap st <=? cursor) && (cursor <? wRxbufGap st + wRxbufGapdisp st).

(** Modelled from the spec: the cursor arithmetic of [readWRxbufRdData]
    (wifi.h, line 73, declaration only).  Section 4.2: the cursor advances
    "with gap-skipping and wraparound at end"; a cursor that falls inside
    the gap is relocated to [gapStart+gapDisp]; an advance that reaches
    [end] wraps to [begin]. *)
Definition gap_skip (st : Wifi) (cursor : Z) : Z :=
  if in_gap st cursor then wRxbufGap st + wRxbufGapdisp st else cursor.

(** Modelled from the spec: "wraparound at end" (section 4.2), "for all
    advances crossing end, the cursor wraps to begin" (section 8). *)
Definition wrap (st : Wifi) (cursor : Z) : Z :=
  if wRxbufEnd st <=? cursor then wRxbufBegin st else cursor.

(** The cursor one word further, before the two rules apply and before it
    is stored into the 16-bit register. *)
Definition advanced (st : Wifi) : Z := wRxbufRdAddr st + word_size.

(** The design document names the two rules of an advance and does not say
    which applies first; both orders are modelled. *)
Inductive RuleOrder : Type := GapFirst | WrapFirst.

(** Modelled from the spec: one advance of the read cursor under either
    order of the two rules; the result is stored into a [uint16_t]. *)
Definition rx_advance (order : RuleOrder) (st : Wifi) : Z :=
  u16 match order with
      | GapFirst => wrap st (gap_skip st (advanced st))
      | WrapFirst => gap_skip st (wrap st (advanced st))
      end.

(** Modelled from the spec: [readWRxbufRdData] (wifi.h, line 73, declaration
    only).  Section 4.2: the read consumes the word at the read cursor,
    advances the cursor and decrements the pending count, which stops at
    0 (section 8); nothing is checked, so on an empty buffer the word
    under the cursor is returned as it is. *)
Definition readWRxbufRdData (order : RuleOrder) (c : Core) : Z * Core :=
  let st := wifi c in
  let value := u16 (wifiRam c (wRxbufRdAddr st)) in
  let st := set_reg RegWRxbufRdAddr (rx_advance order st) st in
  let st :=
    if 0 <? wRxbufCount st
    then set_reg RegWRxbufCount (wRxbufCount st - 1) st
    else st in
  (value, set_wifi st c).

(** [n] reads in a row, nothing else touching the peripheral. *)
Fixpoint rx_reads (order : RuleOrder) (n : nat) (c : Core) : Core :=
  match n with
  | O => c
  | S n => rx_reads order n (snd (readWRxbufRdData order c))
  end.

(** [BIT(bit)]: the mask of one interrupt bit. *)
Definition BIT (bit : Z) : Z := Z.shiftl 1 bit.

(** Modelled from the spec: [sendInterrupt] (wifi.h, line 161, declaration
    only).  Section 4.4: the bit is set in [wIrf]; when the same bit is set
    in [wIe] the external line is asserted, once per transition of the flag
    from clear to set. *)
Definition sendInterrupt (bit : Z) (c : Core) : Core :=
  let st := wifi c in
  let transition := negb (Z.testbit (wIrf st) bit) in
  let st' := set_reg RegWIrf (u16 (Z.lor (wIrf st) (BIT bit))) st in
  let line :=
    if transition && Z.testbit (wIe st) bit
    then S (irqAsserted c) else irqAsserted c in
  mkCore st' (wifiRam c) line.

(** The consoles of the process, by handle. *)
Abbreviation World := (gmap CoreId Core).

(** Modelled from the spec: one half of a registration, [peer] appended to
    the [connections] vector of the peripheral of one console. *)
Definition push_connection (peer : CoreId) (c : Core) : Core :=
  set_wifi (set_connections (connections (wifi c) ++ [peer]) (wifi c)) c.

(** Modelled from the spec: one half of a removal; afterwards [peer] is no
    member of [connections] (section 8), so every occurrence goes. *)
Definition erase_connection (peer : CoreId) (c : Core) : Core :=
  set_wifi
    (set_connections (filter (fun p => p <> peer) (connections (wifi c)))
       (wifi c)) c.

(** Modelled from the spec: [addConnection] and [remConnection] (wifi.h,
    lines 34-35, declarations only), called on the peripheral of console
    [self] with the console [peer].  Sections 3 and 4.5: registration is
    symmetric, the peer is added to (removed from) this instance and this
    instance to (from) the peer; removing a peer that is no member changes
    nothing. *)
Definition addConnection (self peer : CoreId) (w : World) : World :=
  alter (push_connection self) peer (alter (push_connection peer) self w).

(** Modelled from the spec: [remConnection], the mirror image of
    [addConnection]. *)
Definition remConnection (self peer : CoreId) (w : World) : World :=
  alter (erase_connection self) peer (alter (erase_connection peer) self w).

(** The connection set of console [a] in [w] (empty when there is no such
    console). *)
Definition connections_of (w : World) (a : CoreId) : list CoreId :=
  from_option (fun c => connections (wifi c)) [] (w !! a).

(** ** Sample configurations *)

(** A console as it is created: the peripheral in its initial state, the
    memory zeroed, the interrupt line never asserted. *)
Definition console (c : CoreId) : Core := mkCore (Wifi_init c) (fun _ => 0) 0.

(** The console [c] after the RX window registers were given these values. *)
Definition with_rx_window
    (begin stop gap gapdisp cursor count : Z) (c : Core) : Core :=
  set_wifi
    (set_reg RegWRxbufBegin begin
      (set_reg RegWRxbufEnd stop
        (set_reg RegWRxbufGap gap
          (set_reg RegWRxbufGapdisp gapdisp
            (set_reg RegWRxbufRdAddr cursor
              (set_reg RegWRxbufCount count (wifi c))))))) c.

(** The window [[0x100, 0x200)] with a gap of 4 bytes at its very begin and
    the read cursor on the last word. *)
Definition gap_at_begin : Core :=
  with_rx_window 0x100 0x200 0x100 4 0x1FE 3 (console 0%nat).

(** The window [[0x100, 0x200)] with a gap of 8 bytes in its middle and the
    read cursor on the word before the gap. *)
Definition gap_in_middle : Core :=
  with_rx_window 0x100 0x200 0x180 8 0x17E 3 (console 0%nat).

(** The RX window registers hold 16-bit values, as their type has it. *)
Definition rx_regs_16bit (st : Wifi) : Prop :=
  0 <= wRxbufBegin st < 0x10000
  /\ 0 <= wRxbufEnd st < 0x10000
  /\ 0 <= wRxbufGap st < 0x10000
  /\ 0 <= wRxbufGapdisp st < 0x10000
  /\ 0 <= wRxbufRdAddr st < 0x10000.

(** The requirement on the RX window under which the cursor rules of
    section 4.2 do not contradict each other: the window begin is outside
    the gap. *)
Definition rx_window_ok (st : Wifi) : Prop :=
  rx_regs_16bit st /\ in_gap st (wRxbufBegin st) = false.

(** Two consoles, 1 and 2, created and not connected. *)
Definition two_consoles : World :=
  <[1%nat := console 1%nat]> (<[2%nat := console 2%nat]> ∅).

(** ** The desktop canvas (desktop/noo_canvas.cpp)

    The canvas of the desktop front end in the build without
    [USE_GL_CANVAS], and the texture coordinates of the build with it.
    The calls the canvas makes on its collaborators (the frame, the core,
    the device context) are recorded in the order they are made. *)

(** One pixel of the 24-bit bitmap [drawScreen] fills. *)
Record Pixel : Type := mkPixel { Red : Z; Green : Z; Blue : Z }.

(** The three channel assignments of lines 94-97. *)
Definition pixel_of (color : Z) : Pixel :=
  mkPixel (Z.land (Z.shiftr color 0) 0xFF)
          (Z.land (Z.shiftr color 8) 0xFF)
          (Z.land (Z.shiftr color 16) 0xFF).

(** The inner loop of lines 92-98, from column [j] with [n] columns left:
    row [i] of the bitmap, read from [buf[i * wb + j]].  A read outside
    [buf] is undefined in the source and [None] here. *)
Fixpoint drawScreen_row (buf : list Z) (wb i j : Z) (n : nat)
    : option (list Pixel) :=
  match n with
  | O => Some []
  | S n =>
      match at_index buf (i * wb + j), drawScreen_row buf wb i (j + 1) n with
      | Some color, Some rest => Some (pixel_of color :: rest)
      | _, _ => None
      end
  end.

(** The outer loop of lines 89-100, from row [i] with [n] rows left. *)
Fixpoint drawScreen_rows (buf : list Z) (wb i : Z) (n : nat)
    : option (list (list Pixel)) :=
  match n with
  | O => Some []
  | S n =>
      match drawScreen_row buf wb i 0 (Z.to_nat wb),
            drawScreen_rows buf wb (i + 1) n with
      | Some row, Some rest => Some (row :: rest)
      | _, _ => None
      end
  end.

(** The bitmap [drawScreen] builds from [buf] (lines 83-100), as its rows;
    rotation, scaling and painting are done by the toolkit afterwards. *)
Definition drawScreen_bitmap (wb hb : Z) (buf : list Z)
    : option (list (list Pixel)) :=
  drawScreen_rows buf wb 0 (Z.to_nat hb).

(** The table of line 67. *)
Definition texCoords : list Z := [0x4B; 0x2D; 0xD2].

(** [drawScreen] with [USE_GL_CANVAS] (lines 66-81): the four corners of
    the quad in the order they are emitted, each with the texture
    coordinate set just before it. *)
Definition drawScreen_quad (screenRotation x y w h : Z)
    : option (list ((Z * Z) * (Z * Z))) :=
  match at_index texCoords screenRotation with
  | None => None
  | Some coords =>
      Some
        [ ((Z.land (Z.shiftr coords 0) 1, Z.land (Z.shiftr coords 1) 1),
           (x + w, y + h));
          ((Z.land (Z.shiftr coords 2) 1, Z.land (Z.shiftr coords 3) 1),
           (x, y + h));
          ((Z.land (Z.shiftr coords 4) 1, Z.land (Z.shiftr coords 5) 1),
           (x, y));
          ((Z.land (Z.shiftr coords 6) 1, Z.land (Z.shiftr coords 7) 1),
           (x + w, y)) ]
  end.

(** The static settings the canvas reads: [ScreenLayout::gbaCrop] and
    [Settings::highRes3D]. *)
Record Settings : Type := mkSettings { gbaCrop : bool; highRes3D : bool }.

(** Class [ScreenLayout], of which noo_canvas.cpp uses these fields and
    methods; its definition is in no file of the sources and is taken as
    an interface. *)
Class ScreenLayout (Layout : Type) : Type := {
  topX : Layout -> Z;
  topY : Layout -> Z;
  topWidth : Layout -> Z;
  topHeight : Layout -> Z;
  botX : Layout -> Z;
  botY : Layout -> Z;
  botWidth : Layout -> Z;
  botHeight : Layout -> Z;
  minWidth : Layout -> Z;
  minHeight : Layout -> Z;
  update : Z -> Z -> bool -> Layout -> Layout;
  getTouchX : Layout -> Z -> Z -> Z;
  getTouchY : Layout -> Z -> Z -> Z
}.

(** The fields of [NooCanvas] that noo_canvas.cpp reads and writes (their
    declarations are in noo_canvas.h, which is not among the sources; the
    counters are integers, and [lastRateTime] is replaced by the outcome
    of the comparison made with it). *)
Record NooCanvas (Layout : Type) : Type := mkNooCanvas {
  layout : Layout;
  framebuffer : list Z;
  gbaMode : bool;
  sizeReset : Z;
  frameCount : Z;
  swapInterval : Z;
  refreshRate : Z;
  finished : bool
}.

Arguments mkNooCanvas {Layout}.
Arguments layout {Layout}.
Arguments framebuffer {Layout}.
Arguments gbaMode {Layout}.
Arguments sizeReset {Layout}.
Arguments frameCount {Layout}.
Arguments swapInterval {Layout}.
Arguments refreshRate {Layout}.
Arguments finished {Layout}.

(** What [frame->SendSizeEvent()] does to the canvas: the frame may
    dispatch a size event back to it before the call returns.  [NooFrame]
    is in no file of the sources and is taken as an interface. *)
Class NooFrame (Layout : Type) : Type := {
  sendSizeEvent : NooCanvas Layout -> NooCanvas Layout
}.

(** The calls the canvas makes on its collaborators. *)
Inductive Call : Type :=
| SendSizeEvent
| GetFrame (gba : bool)
| DrawScreen (x y w h wb hb offset : Z)
| SetMinClientSize (w h : Z)
| PressKey (i : Z)
| ReleaseKey (i : Z)
| InputPressScreen
| SpiSetTouch (x y : Z)
| InputReleaseScreen
| SpiClearTouch.

(** What one call of [draw] sees of the core: its [gbaMode], and for
    [gpu.getFrame] the result and the framebuffer as the call leaves it. *)
Record CoreFrame : Type := mkCoreFrame {
  coreGbaMode : bool;
  ready : bool;
  written : list Z
}.

Section Canvas.
Context {Layout : Type} `{ScreenLayout Layout} `{NooFrame Layout}.

Definition set_layout (v : Layout) (c : NooCanvas Layout) :=
  mkNooCanvas v (framebuffer c) (gbaMode c) (sizeReset c) (frameCount c)
    (swapInterval c) (refreshRate c) (finished c).
Definition set_framebuffer (v : list Z) (c : NooCanvas Layout) :=
  mkNooCanvas (layout c) v (gbaMode c) (sizeReset c) (frameCount c)
    (swapInterval c) (refreshRate c) (finished c).
Definition set_gbaMode (v : bool) (c : NooCanvas Layout) :=
  mkNooCanvas (layout c) (framebuffer c) v (sizeReset c) (frameCount c)
    (swapInterval c) (refreshRate c) (finished c).
Definition set_sizeReset (v : Z) (c : NooCanvas Layout) :=
  mkNooCanvas (layout c) (framebuffer c) (gbaMode c) v (frameCount c)
    (swapInterval c) (refreshRate c) (finished c).
Definition set_frameCount (v : Z) (c : NooCanvas Layout) :=
  mkNooCanvas (layout c) (framebuffer c) (gbaMode c) (sizeReset c) v
    (swapInterval c) (refreshRate c) (finished c).
Definition set_swapInterval (v : Z) (c : NooCanvas Layout) :=
  mkNooCanvas (layout c) (framebuffer c) (gbaMode c) (sizeReset c)
    (frameCount c) v (refreshRate c) (finished c).
Definition set_refreshRate (v : Z) (c : NooCanvas Layout) :=
  mkNooCanvas (layout c) (framebuffer c) (gbaMode c) (sizeReset c)
    (frameCount c) (swapInterval c) v (finished c).

(** Lines 128-134: the layout follows the GBA mode of the core. *)
Definition draw_mode (gba : bool) (c : NooCanvas Layout)
    : list Call * NooCanvas Layout :=
  if eqb (gbaMode c) gba then ([], c)
  else ([SendSizeEvent], sendSizeEvent (set_gbaMode gba c)).

(** Lines 139-140: [++frameCount >= swapInterval && getFrame(...)]; the
    core is asked only when the count has reached the interval. *)
Definition draw_frame (gba : bool) (k : CoreFrame) (c : NooCanvas Layout)
    : list Call * NooCanvas Layout :=
  let c := set_frameCount (frameCount c + 1) c in
  if swapInterval c <=? frameCount c
  then ([GetFrame gba],
        let c := set_framebuffer (written k) c in
        if ready k then set_frameCount 0 c else c)
  else ([], c).

(** Lines 142-158: the calls of [drawScreen], each with the offset of
    its buffer in [framebuffer]. *)
Definition draw_screens (s : Settings) (c : NooCanvas Layout) : list Call :=
  let resShift := if highRes3D s then 1 else 0 in
  let l := layout c in
  if gbaMode c
  then [ DrawScreen (topX l) (topY l) (topWidth l) (topHeight l)
           (Z.shiftl 240 resShift) (Z.shiftl 160 resShift) 0 ]
  else [ DrawScreen (topX l) (topY l) (topWidth l) (topHeight l)
           (Z.shiftl 256 resShift) (Z.shiftl 192 resShift) 0;
         DrawScreen (botX l) (botY l) (botWidth l) (botHeight l)
           (Z.shiftl 256 resShift) (Z.shiftl 192 resShift)
           (Z.shiftl (256 * 192) (resShift * 2)) ].

(** Lines 161-169: the refresh rate is counted, and once a second (the
    comparison of line 164 is [second]) it sets the swap interval. *)
Definition draw_rate (second : bool) (c : NooCanvas Layout)
    : NooCanvas Layout :=
  let c := set_refreshRate (refreshRate c + 1) c in
  if second
  then set_refreshRate 0
         (set_swapInterval (Z.quot (refreshRate c + 5) 60) c)
  else c.

(** [NooCanvas::draw] (lines 113-176); [core] is [frame->getCore()]. *)
Definition draw (s : Settings) (core : option CoreFrame) (second : bool)
    (c : NooCanvas Layout) : list Call * NooCanvas Layout :=
  if finished c then ([], c)
  else
    let '(calls, c) :=
      match core with
      | None => ([], c)
      | Some k =>
          let gba := coreGbaMode k && gbaCrop s in
          let '(calls1, c) := draw_mode gba c in
          let '(calls2, c) := draw_frame gba k c in
          (calls1 ++ calls2 ++ draw_screens s c, c)
      end in
    (calls, draw_rate second c).

(** Paint events in a row, each with what it sees of the core and of
    the clock. *)
Fixpoint draws (s : Settings) (events : list (option CoreFrame * bool))
    (c : NooCanvas Layout) : list Call * NooCanvas Layout :=
  match events with
  | [] => ([], c)
  | (core, second) :: events =>
      let '(calls, c) := draw s core second c in
      let '(rest, c) := draws s events c in
      (calls ++ rest, c)
  end.

(** [NooCanvas::resize] (lines 178-201); [size] is [GetSize()]. *)
Definition resize (size : Z * Z) (c : NooCanvas Layout)
    : list Call * NooCanvas Layout :=
  let c := set_layout (update (fst size) (snd size) (gbaMode c) (layout c)) c in
  let call :=
    if sizeReset c =? 0
    then SetMinClientSize (minWidth (layout c)) (minHeight (layout c))
    else SetMinClientSize 0 0 in
  ([call], set_sizeReset (sizeReset c - (if sizeReset c =? 0 then 0 else 1)) c).

(** Size events in a row. *)
Fixpoint resizes (sizes : list (Z * Z)) (c : NooCanvas Layout)
    : list Call * NooCanvas Layout :=
  match sizes with
  | [] => ([], c)
  | size :: sizes =>
      let '(calls, c) := resize size c in
      let '(rest, c) := resizes sizes c in
      (calls ++ rest, c)
  end.

(** [NooCanvas::pressScreen] (lines 223-235), the handler of both
    [EVT_LEFT_DOWN] and [EVT_MOTION], and [NooCanvas::releaseScreen]
    (lines 237-245), the handler of [EVT_LEFT_UP]; [running] is
    [frame->isRunning()]. *)
Definition pressScreen (running leftIsDown : bool) (x y : Z)
    (c : NooCanvas Layout) : list Call :=
  if negb running || negb leftIsDown then []
  else [ InputPressScreen;
         SpiSetTouch (getTouchX (layout c) x y) (getTouchY (layout c) x y) ].

Definition releaseScreen (running : bool) : list Call :=
  if running then [InputReleaseScreen; SpiClearTouch] else [].
End Canvas.

(** The mouse events of the event table (lines 37-39), each with what the
    handler reads: whether the emulation runs, and the button and position
    the event carries. *)
Inductive MouseEvent : Type :=
| EvtLeftDown (running leftIsDown : bool) (x y : Z)
| EvtMotion (running leftIsDown : bool) (x y : Z)
| EvtLeftUp (running : bool).

Definition mouse {Layout : Type} `{ScreenLayout Layout}
    (c : NooCanvas Layout) (e : MouseEvent) : list Call :=
  match e with
  | EvtLeftDown running leftIsDown x y => pressScreen running leftIsDown x y c
  | EvtMotion running leftIsDown x y => pressScreen running leftIsDown x y c
  | EvtLeftUp running => releaseScreen running
  end.

(** The loop of [pressKey] and [releaseKey] (lines 206-210, 216-220) from
    index [i] with [n] indices left; [keyBinds] is [NooApp::keyBinds] by
    index and [handler] the method of the frame that is called. *)
Fixpoint key_loop (handler : Z -> Call) (keyBinds : Z -> Z) (keyCode : Z)
    (i : Z) (n : nat) : list Call :=
  match n with
  | O => []
  | S n =>
      (if keyCode =? keyBinds i then [handler i] else [])
      ++ key_loop handler keyBinds keyCode (i + 1) n
  end.

(** [NooCanvas::pressKey] and [NooCanvas::releaseKey]; [MAX_KEYS] and
    [NooApp::keyBinds] are declared in noo_app.h, which is not among the
    sources, and are parameters. *)
Definition pressKey (MAX_KEYS : Z) (keyBinds : Z -> Z) (keyCode : Z)
    : list Call :=
  key_loop PressKey keyBinds keyCode 0 (Z.to_nat MAX_KEYS).

Definition releaseKey (MAX_KEYS : Z) (keyBinds : Z -> Z) (keyCode : Z)
    : list Call :=
  key_loop ReleaseKey keyBinds keyCode 0 (Z.to_nat MAX_KEYS).

(** A layout for examples: the two screens stacked, unscaled; the touch
    position is the position on the bottom screen. *)
#[global] Instance stacked_layout : ScreenLayout unit := {|
  topX := fun _ => 0; topY := fun _ => 0;
  topWidth := fun _ => 256; topHeight := fun _ => 192;
  botX := fun _ => 0; botY := fun _ => 192;
  botWidth := fun _ => 256; botHeight := fun _ => 192;
  minWidth := fun _ => 256; minHeight := fun _ => 384;
  update := fun _ _ _ l => l;
  getTouchX := fun _ x _ => x;
  getTouchY := fun _ _ y => y - 192
|}.

(** A frame whose size event does not reach the canvas. *)
#[global] Instance quiet_frame : NooFrame unit := {|
  sendSizeEvent := fun c => c
|}.

(** A canvas for examples, with [swapInterval] 2 and an empty framebuffer. *)
Definition sample_canvas : NooCanvas unit :=
  mkNooCanvas tt [] false 2 0 2 0 false.

(** The body of one recorded [drawScreen] call on its buffer
    [&framebuffer[offset]]: the bitmap it builds. *)
Definition screen_bitmap (fb : list Z) (call : Call)
    : option (list (list Pixel)) :=
  match call with
  | DrawScreen _ _ _ _ wb hb offset =>
      drawScreen_bitmap wb hb (drop (Z.to_nat offset) fb)
  | _ => None
  end.

(** The pixel in row [i], column [j] of a bitmap. *)
Definition pixel_at (bmp : list (list Pixel)) (i j : Z) : option Pixel :=
  match bmp !! Z.to_nat i with
  | Some row => row !! Z.to_nat j
  | None => None
  end.

(** How many times a run asked the core for a frame. *)
Definition is_fetch (call : Call) : bool :=
  match call with GetFrame _ => true | _ => false end.

Definition fetches (calls : list Call) : nat :=
  length (filter (fun call => is_fetch call = true) calls).

(** A paint event during which the core is in the mode [mode] of the
    canvas and has a frame ready, and the clock has not passed a second. *)
Definition steady (s : Settings) (mode : bool)
    (e : option CoreFrame * bool) : Prop :=
  exists k : CoreFrame,
    e = (Some k, false) /\ coreGbaMode k && gbaCrop s = mode
    /\ ready k = true.

(** A paint event during which the mode of the canvas stays [mode]: there
    is no core, or the core is in that mode. *)
Definition same_mode (s : Settings) (mode : bool)
    (core : option CoreFrame) : Prop :=
  match core with
  | None => True
  | Some k => coreGbaMode k && gbaCrop s = mode
  end.

(** Touch calls come in the pairs the two handlers make. *)
Fixpoint well_paired (calls : list Call) : bool :=
  match calls with
  | [] => true
  | InputPressScreen :: SpiSetTouch _ _ :: rest => well_paired rest
  | InputReleaseScreen :: SpiClearTouch :: rest => well_paired rest
  | _ => false
  end.

(** * Properties *)

(** ** The code of wifi.h *)

Lemma empty_true {A : Type} (v : list A) : empty v = true <-> v = [].
Proof. destruct v; simpl; split; congruence. Qed.

(** C5: [shouldSchedule] returns true exactly when there is a connection or
    the microsecond timer is armed ([wUsCountcnt] is not zero), and no
    service event is pending ([scheduled] is false); so it returns false on
    the state the initializers give a new instance, and on every state with
    no connection and a disarmed timer. *)
Theorem shouldSchedule_iff :
  (forall st : Wifi,
      shouldSchedule st = true <->
      (connections st <> [] \/ wUsCountcnt st <> 0) /\ scheduled st = false)
  /\ (forall c : CoreId, shouldSchedule (Wifi_init c) = false)
  /\ (forall st : Wifi,
        connections st = [] -> wUsCountcnt st = 0 -> shouldSchedule st = false).
Proof.
  split; [| split].
  - intros st. unfold shouldSchedule.
    rewrite andb_true_iff, orb_true_iff, !negb_true_iff.
    rewrite Z.eqb_neq, <- not_true_iff_false, empty_true.
    reflexivity.
  - reflexivity.
  - intros st Hc Ht. unfold shouldSchedule. rewrite Hc, Ht. reflexivity.
Qed.

(** C7: at construction the power-state register holds 0x0200, the TX
    request-read register holds 0x0010, and the baseband config array has
    its 15 factory defaults, as stored and as the read methods report
    them. *)
Theorem power_on_defaults (c : CoreId) :
  wPowerstate (Wifi_init c) = 0x0200
  /\ fst (readWPowerstate (Wifi_init c)) = 0x0200
  /\ wTxreqRead (Wifi_init c) = 0x0010
  /\ fst (readWTxreqRead (Wifi_init c)) = 0x0010
  /\ length (wConfig (Wifi_init c)) = 15%nat
  /\ map (fun index => fst (readWConfig index (Wifi_init c))) (seqZ 0 15)
     = [ 0x0048; 0x4840; 0x0000; 0x0000; 0x0142;
         0x8064; 0x0000; 0x2443; 0x0042; 0x0016;
         0x0016; 0x0016; 0x162C; 0x0204; 0x0058 ].
Proof. repeat split. Qed.

Lemma call_state (m : ReadMethod) (st : Wifi) : snd (call m st) = st.
Proof. destruct m; reflexivity. Qed.

Lemma call_value (m : ReadMethod) (st : Wifi) (stored : Z) :
  get (source_of m) st = Some stored -> fst (call m st) = view m stored.
Proof.
  intros Hget.
  destruct m; simpl in *; unfold cell; first [ congruence | now rewrite Hget ].
Qed.

(** C8: every inline read method leaves the whole state as it was and
    returns the stored value of its register, shifted right by one for the
    write cursor [wRxbufWrcsr]; [readWRxbufRdData] is the one read method
    that is not among them. *)
Theorem inline_reads_pure (m : ReadMethod) (st : Wifi) :
  snd (call m st) = st
  /\ (forall stored : Z,
        get (source_of m) st = Some stored -> fst (call m st) = view m stored).
Proof.
  split; [apply call_state | intros stored; apply call_value].
Qed.

Lemma at_index_replicate (n : nat) (x : Z) (index : Z) (v : Z) :
  at_index (replicate n x) index = Some v -> v = x.
Proof.
  unfold at_index. destruct (0 <=? index); [| discriminate].
  intros H. apply lookup_replicate in H. tauto.
Qed.

(** C10: at construction the 256 cells of the baseband register file are 0,
    every 16-bit register other than [wPowerstate], [wTxreqRead] and the
    cells of [wConfig] is 0, among them the 3 words of [wMacaddr], the 3
    words of [wBssid] and the 5 words of [wTxbufLoc], each of which is
    there and reads 0; the connection set and the packet queue are empty
    and [scheduled] is false. *)
Theorem zero_defaults (c : CoreId) :
  length (bbRegisters (Wifi_init c)) = 256%nat
  /\ Forall (fun b => b = 0) (bbRegisters (Wifi_init c))
  /\ (forall (r : Reg) (v : Z),
        get r (Wifi_init c) = Some v ->
        r <> RegWPowerstate -> r <> RegWTxreqRead ->
        (forall index, r <> RegWConfig index) ->
        v = 0)
  /\ wMacaddr (Wifi_init c) = [0; 0; 0]
  /\ wBssid (Wifi_init c) = [0; 0; 0]
  /\ wTxbufLoc (Wifi_init c) = [0; 0; 0; 0; 0]
  /\ (forall index : Z,
        (0 <= index < 3 -> get (RegWMacaddr index) (Wifi_init c) = Some 0)
        /\ (0 <= index < 3 -> get (RegWBssid index) (Wifi_init c) = Some 0)
        /\ (0 <= index < 5 -> get (RegWTxbufLoc index) (Wifi_init c) = Some 0))
  /\ connections (Wifi_init c) = []
  /\ packets (Wifi_init c) = []
  /\ scheduled (Wifi_init c) = false.
Proof.
  split; [reflexivity |].
  split; [exact (Forall_replicate (fun b => b = 0) 256 0 eq_refl) |].
  split; [| split; [reflexivity |]; split; [reflexivity |];
            split; [reflexivity |]; split; [| repeat split]].
  2: { intros index. unfold get, at_index.
       repeat split; intros Hi;
         (replace (0 <=? index) with true by (symmetry; apply Z.leb_le; lia));
         [ assert (Hc : index = 0 \/ index = 1 \/ index = 2) by lia
         | assert (Hc : index = 0 \/ index = 1 \/ index = 2) by lia
         | assert (Hc : index = 0 \/ index = 1 \/ index = 2 \/ index = 3
                        \/ index = 4) by lia ];
         repeat (destruct Hc as [-> | Hc]; [reflexivity |]);
         subst index; reflexivity. }
  intros r v Hget Hp Ht Hc.
  destruct r; unfold get in Hget;
    try (injection Hget as <-; reflexivity);
    try (exact (at_index_replicate 3 0 _ _ Hget));
    try (exact (at_index_replicate 5 0 _ _ Hget));
    congruence.
Qed.

(** ** Bits of 16-bit values *)

Lemma u16_testbit (x n : Z) :
  0 <= n -> Z.testbit (u16 x) n = Z.testbit x n && (n <? 16).
Proof.
  intros Hn. unfold u16. change 0xFFFF with (Z.ones 16).
  rewrite Z.land_spec, Z.testbit_ones_nonneg by lia. reflexivity.
Qed.

Lemma testbit_high (x n : Z) :
  0 <= x < 0x10000 -> 16 <= n -> Z.testbit x n = false.
Proof.
  intros Hx Hn.
  rewrite <- (Z.mod_small x (2 ^ 16)) by (change (2 ^ 16) with 0x10000; lia).
  apply Z.mod_pow2_bits_high. lia.
Qed.

Lemma u16_range (x : Z) : 0 <= u16 x < 0x10000.
Proof.
  unfold u16. change 0xFFFF with (Z.ones 16). rewrite Z.land_ones by lia.
  change (2 ^ 16) with 0x10000. apply Z.mod_pos_bound. lia.
Qed.

Lemma u16_small (x : Z) : 0 <= x < 0x10000 -> u16 x = x.
Proof.
  intros Hx. unfold u16. change 0xFFFF with (Z.ones 16).
  rewrite Z.land_ones by lia. apply Z.mod_small. exact Hx.
Qed.

(** Bitwise equalities between 16-bit expressions, bit by bit. *)
Ltac bitwise n Hn :=
  apply Z.bits_inj'; intros n Hn;
  repeat first
    [ rewrite u16_testbit by exact Hn
    | rewrite Z.land_spec | rewrite Z.lor_spec
    | rewrite Z.lnot_spec by exact Hn ].

(** ** The register bank *)

Lemma at_index_imap (f : Z -> Z -> Z) (a : list Z) (index : Z) :
  at_index (imap (fun i => f (Z.of_nat i)) a) index
  = f index <$> at_index a index.
Proof.
  unfold at_index. destruct (0 <=? index) eqn:Hi; [| reflexivity].
  rewrite list_lookup_imap, Z2Nat.id by lia. reflexivity.
Qed.

Lemma get_map_regs (f : Reg -> Z -> Z) (r : Reg) (st : Wifi) :
  get r (map_regs f st) = f r <$> get r st.
Proof.
  destruct r; simpl; try reflexivity;
    match goal with
    | |- context [imap (fun i => f (?C (Z.of_nat i)))] =>
        apply (at_index_imap (fun i => f (C i)))
    end.
Qed.

Lemma get_set_reg_eq (r : Reg) (v reg : Z) (st : Wifi) :
  get r st = Some reg -> get r (set_reg r v st) = Some v.
Proof.
  intros Hget. unfold set_reg. rewrite get_map_regs, Hget. simpl.
  destruct (decide (r = r)); congruence.
Qed.

Lemma get_set_reg_ne (r r' : Reg) (v : Z) (st : Wifi) :
  r' <> r -> get r' (set_reg r v st) = get r' st.
Proof.
  intros Hne. unfold set_reg. rewrite get_map_regs.
  destruct (decide (r' = r)); [contradiction |].
  destruct (get r' st); reflexivity.
Qed.

(** ** Register writes *)

Lemma masked_exact (reg mask value : Z) :
  0 <= mask < 0x10000 -> 0 <= reg < 0x10000 ->
  masked reg mask value = Z.lor (Z.land reg (Z.lnot mask)) (Z.land value mask).
Proof.
  intros Hm Hr. unfold masked. bitwise n Hn.
  destruct (n <? 16) eqn:Hlt; [apply andb_true_r |].
  rewrite (testbit_high reg n), (testbit_high mask n) by lia.
  destruct (Z.testbit value n); reflexivity.
Qed.

Lemma cleared_exact (reg mask value : Z) :
  0 <= reg < 0x10000 ->
  stored ClearBits reg mask value = Z.land reg (Z.lnot (Z.land value mask)).
Proof.
  intros Hr. unfold stored. bitwise n Hn.
  destruct (n <? 16) eqn:Hlt; [apply andb_true_r |].
  rewrite (testbit_high reg n) by lia. reflexivity.
Qed.

Lemma set_exact (reg mask value : Z) :
  0 <= mask < 0x10000 -> 0 <= reg < 0x10000 ->
  stored SetBits reg mask value = Z.lor reg (Z.land value mask).
Proof.
  intros Hm Hr. unfold stored. bitwise n Hn.
  destruct (n <? 16) eqn:Hlt; [apply andb_true_r |].
  rewrite (testbit_high reg n), (testbit_high mask n) by lia.
  destruct (Z.testbit value n); reflexivity.
Qed.

(** Equalities between bitwise expressions over [previous], [mask] and
    [value], bit by bit. *)
Ltac bits_of previous mask value :=
  let n := fresh "n" in
  let Hn := fresh "Hn" in
  bitwise n Hn; rewrite ?Z.bits_0;
  destruct (Z.testbit previous n), (Z.testbit mask n), (Z.testbit value n);
  reflexivity.




(** ** The RX read cursor *)

Lemma u16_mod (x : Z) : u16 x = x mod 0x10000.
Proof.
  unfold u16. change 0xFFFF with (Z.ones 16). rewrite Z.land_ones by lia.
  reflexivity.
Qed.

Lemma read_cursor (order : RuleOrder) (c : Core) :
  wRxbufRdAddr (wifi (snd (readWRxbufRdData order c)))
  = rx_advance order (wifi c).
Proof.
  unfold readWRxbufRdData. simpl. destruct (0 <? _); reflexivity.
Qed.

Lemma read_count (order : RuleOrder) (c : Core) :
  wRxbufCount (wifi (snd (readWRxbufRdData order c)))
  = if 0 <? wRxbufCount (wifi c)
    then wRxbufCount (wifi c) - 1 else wRxbufCount (wifi c).
Proof.
  unfold readWRxbufRdData. simpl. destruct (0 <? _); reflexivity.
Qed.

Lemma read_changes_state (order : RuleOrder) (c : Core) :
  0 < wRxbufCount (wifi c) -> snd (readWRxbufRdData order c) <> c.
Proof.
  intros Hpos Heq. pose proof (read_count order c) as Hcount.
  rewrite Heq in Hcount. apply Z.ltb_lt in Hpos. rewrite Hpos in Hcount. lia.
Qed.

Lemma read_window (order : RuleOrder) (c : Core) :
  let st' := wifi (snd (readWRxbufRdData order c)) in
  wRxbufBegin st' = wRxbufBegin (wifi c)
  /\ wRxbufEnd st' = wRxbufEnd (wifi c)
  /\ wRxbufGap st' = wRxbufGap (wifi c)
  /\ wRxbufGapdisp st' = wRxbufGapdisp (wifi c).
Proof.
  unfold readWRxbufRdData. simpl. destruct (0 <? _); repeat split.
Qed.

Lemma in_gap_read (order : RuleOrder) (c : Core) (cursor : Z) :
  in_gap (wifi (snd (readWRxbufRdData order c))) cursor
  = in_gap (wifi c) cursor.
Proof.
  destruct (read_window order c) as (_ & _ & Hg & Hd).
  unfold in_gap. rewrite Hg, Hd. reflexivity.
Qed.

Lemma in_gap_reads (order : RuleOrder) (n : nat) (c : Core) (cursor : Z) :
  in_gap (wifi (rx_reads order n c)) cursor = in_gap (wifi c) cursor.
Proof.
  revert c. induction n as [| n IH]; intros c; [reflexivity |].
  simpl. rewrite IH. apply in_gap_read.
Qed.

Lemma rx_window_ok_read (order : RuleOrder) (c : Core) :
  rx_window_ok (wifi c) ->
  rx_window_ok (wifi (snd (readWRxbufRdData order c))).
Proof.
  destruct (read_window order c) as (Hb & He & Hg & Hd).
  unfold rx_window_ok, rx_regs_16bit.
  rewrite in_gap_read, Hb, He, Hg, Hd, read_cursor.
  pose proof (u16_range
                match order with
                | GapFirst => wrap (wifi c) (gap_skip (wifi c) (advanced (wifi c)))
                | WrapFirst => gap_skip (wifi c) (wrap (wifi c) (advanced (wifi c)))
                end) as Hu.
  unfold rx_advance. tauto.
Qed.

Lemma rx_window_ok_reads (order : RuleOrder) (n : nat) (c : Core) :
  rx_window_ok (wifi c) -> rx_window_ok (wifi (rx_reads order n c)).
Proof.
  revert c. induction n as [| n IH]; intros c Hok; simpl; [exact Hok |].
  apply IH, rx_window_ok_read, Hok.
Qed.

Lemma rx_reads_last (order : RuleOrder) (n : nat) (c : Core) :
  rx_reads order (S n) c
  = snd (readWRxbufRdData order (rx_reads order n c)).
Proof.
  revert c. induction n as [| n IH]; intros c; [reflexivity |].
  change (rx_reads order (S (S n)) c)
    with (rx_reads order (S n) (snd (readWRxbufRdData order c))).
  rewrite IH. reflexivity.
Qed.

Lemma in_gap_true (st : Wifi) (cursor : Z) :
  in_gap st cursor = true
  <-> wRxbufGap st <= cursor < wRxbufGap st + wRxbufGapdisp st.
Proof.
  unfold in_gap. rewrite andb_true_iff, Z.leb_le, Z.ltb_lt. reflexivity.
Qed.

Lemma in_gap_false (st : Wifi) (cursor : Z) :
  in_gap st cursor = false
  <-> cursor < wRxbufGap st \/ wRxbufGap st + wRxbufGapdisp st <= cursor.
Proof.
  unfold in_gap. rewrite andb_false_iff, Z.leb_gt, Z.ltb_ge. reflexivity.
Qed.

Lemma far_edge_outside (st : Wifi) :
  0 <= wRxbufGap st < 0x10000 -> 0 <= wRxbufGapdisp st < 0x10000 ->
  in_gap st (u16 (wRxbufGap st + wRxbufGapdisp st)) = false.
Proof.
  intros Hg Hd. apply in_gap_false. rewrite u16_mod.
  Z.div_mod_to_equations. lia.
Qed.

(** One advance in closed form, under either order of the two rules. *)
Lemma rx_advance_closed (order : RuleOrder) (st : Wifi) :
  rx_window_ok st ->
  let next := wRxbufRdAddr st + 2 in
  let far := wRxbufGap st + wRxbufGapdisp st in
  rx_advance order st
  = if wRxbufEnd st <=? next then wRxbufBegin st
    else if in_gap st next
         then match order with
              | GapFirst => if wRxbufEnd st <=? far then wRxbufBegin st else far
              | WrapFirst => u16 far
              end
         else next.
Proof.
  intros ((Hb & He & Hg & Hd & Hc) & Hbegin). cbv zeta.
  unfold rx_advance, wrap, gap_skip, advanced, word_size.
  destruct (wRxbufEnd st <=? wRxbufRdAddr st + 2) eqn:Hcross;
    [apply Z.leb_le in Hcross | apply Z.leb_gt in Hcross];
    destruct (in_gap st (wRxbufRdAddr st + 2)) eqn:Hin;
    try (apply in_gap_true in Hin);
    destruct order;
    rewrite ?Hbegin;
    repeat match goal with
      | |- context [?a <=? ?b] =>
          let H := fresh "Hle" in
          destruct (a <=? b) eqn:H;
          [apply Z.leb_le in H | apply Z.leb_gt in H]
      end;
    try lia; try reflexivity; apply u16_small; lia.
Qed.

Lemma rx_advance_outside_gap (order : RuleOrder) (st : Wifi) :
  rx_window_ok st -> in_gap st (rx_advance order st) = false.
Proof.
  intros Hok. rewrite (rx_advance_closed order st Hok). cbv zeta.
  destruct Hok as ((Hb & He & Hg & Hd & Hc) & Hbegin).
  destruct (wRxbufEnd st <=? wRxbufRdAddr st + 2); [exact Hbegin |].
  destruct (in_gap st (wRxbufRdAddr st + 2)) eqn:Hin; [| exact Hin].
  destruct order; [| apply far_edge_outside; assumption].
  destruct (wRxbufEnd st <=? _); [exact Hbegin |].
  apply in_gap_false. lia.
Qed.




(** ** The RX pending count *)

Lemma read_ram (order : RuleOrder) (c : Core) :
  wifiRam (snd (readWRxbufRdData order c)) = wifiRam c.
Proof. reflexivity. Qed.

Lemma rx_reads_ram (order : RuleOrder) (n : nat) (c : Core) :
  wifiRam (rx_reads order n c) = wifiRam c.
Proof.
  revert c. induction n as [| n IH]; intros c; [reflexivity |].
  simpl. rewrite IH. apply read_ram.
Qed.

Lemma rx_reads_count (order : RuleOrder) (n : nat) (c : Core) :
  0 <= wRxbufCount (wifi c) ->
  wRxbufCount (wifi (rx_reads order n c))
  = Z.max (wRxbufCount (wifi c) - Z.of_nat n) 0.
Proof.
  revert c. induction n as [| n IH]; intros c Hc.
  - simpl. lia.
  - change (rx_reads order (S n) c)
      with (rx_reads order n (snd (readWRxbufRdData order c))).
    pose proof (read_count order c) as Hstep.
    destruct (0 <? wRxbufCount (wifi c)) eqn:Hpos;
      [apply Z.ltb_lt in Hpos | apply Z.ltb_ge in Hpos];
      rewrite IH by (rewrite Hstep; lia); rewrite Hstep; lia.
Qed.

(** C3: after [n] reads of [wRxbufRdData] with nothing else touching the
    peripheral, the pending count is [max (C - n) 0] for the initial count
    [C]; a read that finds the count at 0 returns the word that the memory
    holds under the cursor, leaves the count at 0 and has no error result.
    This holds whichever of the two cursor rules applies first. *)
Theorem rx_count_after_reads (order : RuleOrder) (c : Core) (n : nat) :
  0 <= wRxbufCount (wifi c) ->
  wRxbufCount (wifi (rx_reads order n c))
  = Z.max (wRxbufCount (wifi c) - Z.of_nat n) 0
  /\ (forall k : nat,
        let before := rx_reads order k c in
        wRxbufCount (wifi before) = 0 ->
        fst (readWRxbufRdData order before)
        = u16 (wifiRam c (wRxbufRdAddr (wifi before)))
        /\ wRxbufCount (wifi (snd (readWRxbufRdData order before))) = 0).
Proof.
  intros Hc. split; [apply rx_reads_count, Hc |].
  intros k before Hzero. split.
  - unfold before. unfold readWRxbufRdData. simpl.
    rewrite rx_reads_ram. reflexivity.
  - rewrite read_count, Hzero. reflexivity.
Qed.

Lemma rx_count_after_reads_witness :
  wRxbufCount (wifi (rx_reads GapFirst 5 gap_in_middle))
  = Z.max (wRxbufCount (wifi gap_in_middle) - Z.of_nat 5) 0
  /\ (forall k : nat,
        let before := rx_reads GapFirst k gap_in_middle in
        wRxbufCount (wifi before) = 0 ->
        fst (readWRxbufRdData GapFirst before)
        = u16 (wifiRam gap_in_middle (wRxbufRdAddr (wifi before)))
        /\ wRxbufCount (wifi (snd (readWRxbufRdData GapFirst before))) = 0).
Proof.
  apply (rx_count_after_reads GapFirst gap_in_middle 5). vm_compute. congruence.
Defined.

(** ** Interrupts *)

Lemma BIT_testbit (bit b : Z) :
  0 <= bit -> Z.testbit (BIT bit) b = (bit =? b).
Proof.
  intros Hbit. unfold BIT. rewrite Z.shiftl_1_l.
  apply Z.pow2_bits_eqb. exact Hbit.
Qed.

Lemma sendInterrupt_flags (bit : Z) (c : Core) :
  wIrf (wifi (sendInterrupt bit c)) = u16 (Z.lor (wIrf (wifi c)) (BIT bit)).
Proof. reflexivity. Qed.

Lemma sendInterrupt_enable (bit : Z) (c : Core) :
  wIe (wifi (sendInterrupt bit c)) = wIe (wifi c).
Proof. reflexivity. Qed.

Lemma sendInterrupt_line (bit : Z) (c : Core) :
  irqAsserted (sendInterrupt bit c)
  = if negb (Z.testbit (wIrf (wifi c)) bit) && Z.testbit (wIe (wifi c)) bit
    then S (irqAsserted c) else irqAsserted c.
Proof. reflexivity. Qed.

Lemma sendInterrupt_sets (bit : Z) (c : Core) :
  0 <= bit < 16 -> Z.testbit (wIrf (wifi (sendInterrupt bit c))) bit = true.
Proof.
  intros Hbit. rewrite sendInterrupt_flags, u16_testbit, Z.lor_spec by lia.
  rewrite BIT_testbit, Z.eqb_refl, orb_true_r by lia.
  apply andb_true_iff. split; [reflexivity | apply Z.ltb_lt; lia].
Qed.

(** C4: for every interrupt bit, [sendInterrupt] sets the bit in [wIrf];
    when the bit is set in [wIe] and goes from clear to set the external
    line is asserted once; when the bit is already set, or is not enabled,
    the line is not asserted, so a second [sendInterrupt] of the same bit
    never asserts it again.  The other flag bits and [wIe] stay as they
    were. *)
Theorem sendInterrupt_once (bit : Z) (c : Core) :
  0 <= bit < 16 ->
  let c1 := sendInterrupt bit c in
  let c2 := sendInterrupt bit c1 in
  Z.testbit (wIrf (wifi c1)) bit = true
  /\ (Z.testbit (wIe (wifi c)) bit = true ->
      Z.testbit (wIrf (wifi c)) bit = false ->
      irqAsserted c1 = S (irqAsserted c))
  /\ (Z.testbit (wIrf (wifi c)) bit = true -> irqAsserted c1 = irqAsserted c)
  /\ (Z.testbit (wIe (wifi c)) bit = false -> irqAsserted c1 = irqAsserted c)
  /\ irqAsserted c2 = irqAsserted c1
  /\ (forall b : Z,
        0 <= b < 16 -> b <> bit ->
        Z.testbit (wIrf (wifi c1)) b = Z.testbit (wIrf (wifi c)) b)
  /\ wIe (wifi c1) = wIe (wifi c).
Proof.
  intros Hbit c1 c2. subst c1 c2.
  pose proof (sendInterrupt_sets bit c Hbit) as Hset.
  split; [exact Hset |].
  split; [intros He Hf; rewrite sendInterrupt_line, He, Hf; reflexivity |].
  split; [intros Hf; rewrite sendInterrupt_line, Hf; reflexivity |].
  split; [intros He; rewrite sendInterrupt_line, He, andb_false_r;
          reflexivity |].
  split; [rewrite (sendInterrupt_line bit (sendInterrupt bit c)), Hset;
          reflexivity |].
  split; [| reflexivity].
  intros b Hb Hne.
  rewrite sendInterrupt_flags, u16_testbit, Z.lor_spec, BIT_testbit by lia.
  replace (bit =? b) with false by (symmetry; apply Z.eqb_neq; lia).
  replace (b <? 16) with true by (symmetry; apply Z.ltb_lt; lia).
  rewrite orb_false_r. apply andb_true_r.
Qed.

Lemma sendInterrupt_once_witness :
  let c := set_wifi (set_reg RegWIe 0x0041 (Wifi_init 0%nat)) (console 0%nat) in
  let c1 := sendInterrupt 6 c in
  let c2 := sendInterrupt 6 c1 in
  Z.testbit (wIrf (wifi c1)) 6 = true
  /\ (Z.testbit (wIe (wifi c)) 6 = true ->
      Z.testbit (wIrf (wifi c)) 6 = false ->
      irqAsserted c1 = S (irqAsserted c))
  /\ (Z.testbit (wIrf (wifi c)) 6 = true -> irqAsserted c1 = irqAsserted c)
  /\ (Z.testbit (wIe (wifi c)) 6 = false -> irqAsserted c1 = irqAsserted c)
  /\ irqAsserted c2 = irqAsserted c1
  /\ (forall b : Z,
        0 <= b < 16 -> b <> 6 ->
        Z.testbit (wIrf (wifi c1)) b = Z.testbit (wIrf (wifi c)) b)
  /\ wIe (wifi c1) = wIe (wifi c).
Proof.
  apply (sendInterrupt_once 6
           (set_wifi (set_reg RegWIe 0x0041 (Wifi_init 0%nat)) (console 0%nat))).
  lia.
Defined.

(** ** Connections *)

Lemma connections_push (peer : CoreId) (c : Core) :
  connections (wifi (push_connection peer c)) = connections (wifi c) ++ [peer].
Proof. reflexivity. Qed.

Lemma connections_erase (peer : CoreId) (c : Core) :
  connections (wifi (erase_connection peer c))
  = filter (fun p => p <> peer) (connections (wifi c)).
Proof. reflexivity. Qed.

Lemma connections_of_alter (f : Core -> Core) (w : World) (a : CoreId) :
  connections_of (alter f a w) a
  = from_option (fun c => connections (wifi (f c))) [] (w !! a).
Proof.
  unfold connections_of. rewrite lookup_alter_eq.
  destruct (w !! a); reflexivity.
Qed.

Lemma connections_of_alter_ne (f : Core -> Core) (w : World) (a b : CoreId) :
  a <> b -> connections_of (alter f a w) b = connections_of w b.
Proof.
  intros Hne. unfold connections_of. rewrite lookup_alter_ne by exact Hne.
  reflexivity.
Qed.

Lemma filter_keeps_all (peer : CoreId) (v : list CoreId) :
  peer ∉ v -> filter (fun p => p <> peer) v = v.
Proof.
  induction v as [| x v IH]; intros Hnot; [reflexivity |].
  apply not_elem_of_cons in Hnot as [Hx Hv].
  rewrite filter_cons_True by congruence. f_equal. apply IH, Hv.
Qed.

Lemma erase_non_member (peer : CoreId) (c : Core) :
  peer ∉ connections (wifi c) -> erase_connection peer c = c.
Proof.
  intros Hnot. unfold erase_connection. rewrite filter_keeps_all by exact Hnot.
  destruct c as [st ram line]. destruct st. reflexivity.
Qed.

(** C6: for distinct consoles [a] and [b], after [a.addConnection(b)] the
    connection set of [a] contains [b] and that of [b] contains [a]; after
    [a.remConnection(b)] neither set contains the other, in particular when
    the removal follows the registration. *)
Theorem connection_symmetric (w : World) (a b : CoreId) :
  a <> b -> is_Some (w !! a) -> is_Some (w !! b) ->
  (b ∈ connections_of (addConnection a b w) a
   /\ a ∈ connections_of (addConnection a b w) b)
  /\ ((b ∉ connections_of (remConnection a b w) a)
      /\ (a ∉ connections_of (remConnection a b w) b))
  /\ ((b ∉ connections_of (remConnection a b (addConnection a b w)) a)
      /\ (a ∉ connections_of (remConnection a b (addConnection a b w)) b)).
Proof.
  intros Hne [ca Ha] [cb Hb].
  assert (Hrem : forall w' : World,
             (b ∉ connections_of (remConnection a b w') a)
             /\ (a ∉ connections_of (remConnection a b w') b)).
  { intros w'. unfold remConnection. split.
    - rewrite connections_of_alter_ne, connections_of_alter by congruence.
      destruct (w' !! a) as [c |]; simpl; [| apply not_elem_of_nil].
      rewrite list_elem_of_filter. tauto.
    - rewrite connections_of_alter, lookup_alter_ne by exact Hne.
      destruct (w' !! b) as [c |]; simpl; [| apply not_elem_of_nil].
      rewrite list_elem_of_filter. tauto. }
  split; [| split; apply Hrem].
  unfold addConnection. split.
  - rewrite connections_of_alter_ne, connections_of_alter, Ha by congruence.
    simpl. apply elem_of_app. right. apply list_elem_of_singleton. reflexivity.
  - rewrite connections_of_alter, lookup_alter_ne, Hb by exact Hne.
    simpl. apply elem_of_app. right. apply list_elem_of_singleton. reflexivity.
Qed.

Lemma connection_symmetric_witness :
  (2%nat ∈ connections_of (addConnection 1%nat 2%nat two_consoles) 1%nat
   /\ 1%nat ∈ connections_of (addConnection 1%nat 2%nat two_consoles) 2%nat)
  /\ ((2%nat ∉ connections_of (remConnection 1%nat 2%nat two_consoles) 1%nat)
      /\ (1%nat ∉ connections_of (remConnection 1%nat 2%nat two_consoles) 2%nat))
  /\ ((2%nat ∉ connections_of
         (remConnection 1%nat 2%nat (addConnection 1%nat 2%nat two_consoles))
         1%nat)
      /\ (1%nat ∉ connections_of
            (remConnection 1%nat 2%nat (addConnection 1%nat 2%nat two_consoles))
            2%nat)).
Proof.
  apply (connection_symmetric two_consoles 1%nat 2%nat).
  - lia.
  - exists (console 1%nat). reflexivity.
  - exists (console 2%nat). reflexivity.
Defined.

(** C9: when [b] is not in the connection set of [a], [a.remConnection(b)]
    leaves the console [a] exactly as it was, its connection set and every
    other field; the operation is total and has no error result. *)
Theorem remConnection_non_member (w : World) (a b : CoreId) :
  b ∉ connections_of w a ->
  remConnection a b w !! a = w !! a
  /\ connections_of (remConnection a b w) a = connections_of w a.
Proof.
  intros Hnot.
  assert (Hsame : erase_connection b <$> w !! a = w !! a).
  { unfold connections_of in Hnot. destruct (w !! a) as [c |]; [| reflexivity].
    simpl in *. f_equal. apply erase_non_member, Hnot. }
  assert (Hlook : remConnection a b w !! a = w !! a).
  { unfold remConnection. destruct (decide (b = a)) as [-> | Hne].
    - rewrite !lookup_alter_eq, Hsame. exact Hsame.
    - rewrite lookup_alter_ne, lookup_alter_eq by exact Hne. exact Hsame. }
  split; [exact Hlook |].
  unfold connections_of. rewrite Hlook. reflexivity.
Qed.

Lemma remConnection_non_member_witness :
  remConnection 1%nat 2%nat two_consoles !! 1%nat = two_consoles !! 1%nat
  /\ connections_of (remConnection 1%nat 2%nat two_consoles) 1%nat
     = connections_of two_consoles 1%nat.
Proof.
  apply (remConnection_non_member two_consoles 1%nat 2%nat).
  vm_compute. apply not_elem_of_nil.
Defined.

(** ** The bitmap of [drawScreen] *)

Lemma at_index_Some (a : list Z) (index : Z) :
  is_Some (at_index a index) <-> 0 <= index < Z.of_nat (length a).
Proof.
  unfold at_index. destruct (0 <=? index) eqn:Hi.
  - apply Z.leb_le in Hi. rewrite lookup_lt_is_Some. lia.
  - apply Z.leb_gt in Hi. split; [intros [v Hv]; discriminate | lia].
Qed.

Lemma at_index_None (a : list Z) (index : Z) :
  Z.of_nat (length a) <= index -> at_index a index = None.
Proof.
  intros Hge. destruct (at_index a index) eqn:Hv; [| reflexivity].
  assert (Hs : is_Some (at_index a index)) by (rewrite Hv; eauto).
  apply at_index_Some in Hs. lia.
Qed.

Lemma drawScreen_row_Some (buf : list Z) (wb i : Z) (n : nat) (j : Z) :
  0 <= i * wb + j ->
  i * wb + j + Z.of_nat n <= Z.of_nat (length buf) ->
  exists row : list Pixel,
    drawScreen_row buf wb i j n = Some row
    /\ length row = n
    /\ (forall k : nat,
          (k < n)%nat ->
          exists color : Z,
            at_index buf (i * wb + j + Z.of_nat k) = Some color
            /\ row !! k = Some (pixel_of color)).
Proof.
  revert j. induction n as [| n IH]; intros j Hlo Hhi.
  - exists []. repeat split. intros k Hk. lia.
  - destruct (proj2 (at_index_Some buf (i * wb + j))) as [color Hc]; [lia |].
    destruct (IH (j + 1)) as (rest & Hrest & Hlen & Hpix); [lia | lia |].
    exists (pixel_of color :: rest). simpl. rewrite Hc, Hrest.
    split; [reflexivity |]. split; [simpl; congruence |].
    intros [| k] Hk.
    + exists color. rewrite Z.add_0_r. split; [exact Hc | reflexivity].
    + destruct (Hpix k) as (color' & Hc' & Hk'); [lia |].
      exists color'. split; [| exact Hk'].
      rewrite <- Hc'. f_equal. lia.
Qed.

Lemma drawScreen_row_None (buf : list Z) (wb i : Z) (n : nat) (j : Z) :
  0 <= i * wb + j ->
  Z.of_nat (length buf) < i * wb + j + Z.of_nat (S n) ->
  drawScreen_row buf wb i j (S n) = None.
Proof.
  revert j. induction n as [| n IH]; intros j Hlo Hhi;
    cbn [drawScreen_row];
    destruct (at_index buf (i * wb + j)) as [color |] eqn:Hc;
    try reflexivity;
    assert (Hs : is_Some (at_index buf (i * wb + j))) by (rewrite Hc; eauto);
    apply at_index_Some in Hs.
  - lia.
  - change (match drawScreen_row buf wb i (j + 1) (S n) with
            | Some rest => Some (pixel_of color :: rest)
            | None => None
            end = None).
    rewrite IH; [reflexivity | lia | lia].
Qed.

Lemma drawScreen_rows_Some (buf : list Z) (wb : Z) (n : nat) (i : Z) :
  0 <= wb -> 0 <= i ->
  (i + Z.of_nat n) * wb <= Z.of_nat (length buf) ->
  exists bmp : list (list Pixel),
    drawScreen_rows buf wb i n = Some bmp
    /\ length bmp = n
    /\ Forall (fun row => length row = Z.to_nat wb) bmp
    /\ (forall r k : nat,
          (r < n)%nat -> (k < Z.to_nat wb)%nat ->
          exists (row : list Pixel) (color : Z),
            bmp !! r = Some row
            /\ at_index buf ((i + Z.of_nat r) * wb + Z.of_nat k) = Some color
            /\ row !! k = Some (pixel_of color)).
Proof.
  intros Hwb. revert i. induction n as [| n IH]; intros i Hi Hhi.
  - exists []. repeat split; [constructor | intros r k Hr; lia].
  - destruct (drawScreen_row_Some buf wb i (Z.to_nat wb) 0)
      as (row & Hrow & Hlen & Hpix); [nia | nia |].
    destruct (IH (i + 1)) as (rest & Hrest & Hlen' & Hall & Hpix');
      [lia | nia |].
    exists (row :: rest). simpl. rewrite Hrow, Hrest.
    split; [reflexivity |]. split; [simpl; congruence |].
    split; [constructor; assumption |].
    intros [| r] k Hr Hk.
    + destruct (Hpix k Hk) as (color & Hc & Hk').
      exists row, color. split; [reflexivity |]. split; [| exact Hk'].
      rewrite <- Hc. f_equal. lia.
    + destruct (Hpix' r k) as (row' & color & Hr' & Hc & Hk'); [lia | lia |].
      exists row', color. split; [exact Hr' |]. split; [| exact Hk'].
      rewrite <- Hc. f_equal. lia.
Qed.

Lemma drawScreen_rows_None (buf : list Z) (wb : Z) (n : nat) (i : Z) :
  0 < wb -> 0 <= i -> (0 < n)%nat ->
  Z.of_nat (length buf) < (i + Z.of_nat n) * wb ->
  drawScreen_rows buf wb i n = None.
Proof.
  intros Hwb. revert i. induction n as [| n IH]; intros i Hi Hn Hhi; [lia |].
  simpl. destruct (drawScreen_row buf wb i 0 (Z.to_nat wb)) as [row |] eqn:Hrow;
    [| reflexivity].
  destruct n as [| n].
  - destruct (Z.to_nat wb) as [| m] eqn:Hm; [lia |].
    rewrite drawScreen_row_None in Hrow; [discriminate | nia | nia].
  - rewrite IH; [reflexivity | lia | lia | nia].
Qed.

Lemma bitmap_Some (wb hb : Z) (buf : list Z) :
  0 <= wb -> 0 <= hb -> wb * hb <= Z.of_nat (length buf) ->
  exists bmp : list (list Pixel),
    drawScreen_bitmap wb hb buf = Some bmp
    /\ Z.of_nat (length bmp) = hb
    /\ Forall (fun row => Z.of_nat (length row) = wb) bmp
    /\ (forall i j : Z,
          0 <= i < hb -> 0 <= j < wb ->
          exists color : Z,
            at_index buf (i * wb + j) = Some color
            /\ pixel_at bmp i j = Some (pixel_of color)).
Proof.
  intros Hwb Hhb Hlen.
  destruct (drawScreen_rows_Some buf wb (Z.to_nat hb) 0)
    as (bmp & Hbmp & Hrows & Hall & Hpix); [lia | lia | nia |].
  exists bmp. split; [exact Hbmp |]. split; [lia |].
  split.
  - eapply Forall_impl; [exact Hall |]. simpl. intros row Hrow. lia.
  - intros i j Hi Hj.
    destruct (Hpix (Z.to_nat i) (Z.to_nat j)) as (row & color & Hr & Hc & Hk);
      [lia | lia |].
    exists color. split.
    + rewrite <- Hc. f_equal. lia.
    + unfold pixel_at. rewrite Hr. exact Hk.
Qed.

(** X1: when [buf] holds at least [wb * hb] words, [drawScreen] builds a
    bitmap of [hb] rows of [wb] pixels whose pixel in row [i], column [j]
    is the colour word [buf[i * wb + j]] split into its channels. *)
Theorem drawScreen_bitmap_pixels (wb hb : Z) (buf : list Z) :
  0 <= wb -> 0 <= hb -> wb * hb <= Z.of_nat (length buf) ->
  exists bmp : list (list Pixel),
    drawScreen_bitmap wb hb buf = Some bmp
    /\ Z.of_nat (length bmp) = hb
    /\ Forall (fun row => Z.of_nat (length row) = wb) bmp
    /\ (forall i j : Z,
          0 <= i < hb -> 0 <= j < wb ->
          exists color : Z,
            at_index buf (i * wb + j) = Some color
            /\ pixel_at bmp i j = Some (pixel_of color)).
Proof. exact (bitmap_Some wb hb buf). Qed.

Lemma drawScreen_bitmap_pixels_witness :
  exists bmp : list (list Pixel),
    drawScreen_bitmap 2 2 [0x010203; 0x040506; 0x070809; 0x0A0B0C; 0xFF]
    = Some bmp
    /\ Z.of_nat (length bmp) = 2
    /\ Forall (fun row => Z.of_nat (length row) = 2) bmp
    /\ (forall i j : Z,
          0 <= i < 2 -> 0 <= j < 2 ->
          exists color : Z,
            at_index [0x010203; 0x040506; 0x070809; 0x0A0B0C; 0xFF] (i * 2 + j)
            = Some color
            /\ pixel_at bmp i j = Some (pixel_of color)).
Proof.
  apply (drawScreen_bitmap_pixels 2 2
           [0x010203; 0x040506; 0x070809; 0x0A0B0C; 0xFF]);
    [lia | lia | simpl; lia].
Defined.

Lemma bitmap_is_Some (wb hb : Z) (buf : list Z) :
  0 < wb -> 0 < hb ->
  (is_Some (drawScreen_bitmap wb hb buf)
   <-> wb * hb <= Z.of_nat (length buf)).
Proof.
  intros Hwb Hhb. split.
  - intros [bmp Hbmp].
    destruct (Z_le_gt_dec (wb * hb) (Z.of_nat (length buf))) as [Hle | Hgt];
      [exact Hle |].
    unfold drawScreen_bitmap in Hbmp.
    rewrite drawScreen_rows_None in Hbmp; [discriminate | lia | lia | lia | nia].
  - intros Hle.
    destruct (drawScreen_rows_Some buf wb (Z.to_nat hb) 0)
      as (bmp & Hbmp & _); [lia | lia | nia |].
    unfold drawScreen_bitmap. rewrite Hbmp. eauto.
Qed.

(** X2: for a bitmap that has pixels, [drawScreen] stays inside [buf]
    exactly when [buf] holds at least [wb * hb] words; with fewer, a read
    falls outside it. *)
Theorem drawScreen_bitmap_bounds (wb hb : Z) (buf : list Z) :
  0 < wb -> 0 < hb ->
  (is_Some (drawScreen_bitmap wb hb buf)
   <-> wb * hb <= Z.of_nat (length buf)).
Proof. exact (bitmap_is_Some wb hb buf). Qed.

Lemma drawScreen_bitmap_bounds_witness :
  is_Some (drawScreen_bitmap 2 2 [1; 2; 3; 4])
  <-> 2 * 2 <= Z.of_nat (length [1; 2; 3; 4]).
Proof. apply (drawScreen_bitmap_bounds 2 2 [1; 2; 3; 4]); lia. Defined.

Lemma land_byte (x : Z) : Z.land x 0xFF = x mod 256.
Proof. change 0xFF with (Z.ones 8). rewrite Z.land_ones by lia. reflexivity. Qed.

(** X3: a colour word made of the bytes [r], [g], [b], [a], lowest first,
    gives the pixel with channels [r], [g], [b]: the channels are the three
    low bytes of the word and its top byte has no part in the pixel. *)
Theorem pixel_of_bytes (r g b a : Z) :
  0 <= r < 256 -> 0 <= g < 256 -> 0 <= b < 256 -> 0 <= a < 256 ->
  pixel_of (r + g * 2 ^ 8 + b * 2 ^ 16 + a * 2 ^ 24) = mkPixel r g b
  /\ pixel_of (r + g * 2 ^ 8 + b * 2 ^ 16 + a * 2 ^ 24)
     = pixel_of (r + g * 2 ^ 8 + b * 2 ^ 16).
Proof.
  intros Hr Hg Hb Ha.
  assert (Hpix : forall a' : Z,
             0 <= a' < 256 ->
             pixel_of (r + g * 2 ^ 8 + b * 2 ^ 16 + a' * 2 ^ 24)
             = mkPixel r g b).
  { intros a' Ha'. unfold pixel_of.
    rewrite !Z.shiftr_div_pow2, !land_byte by lia.
    change (2 ^ 0) with 1. change (2 ^ 8) with 256.
    change (2 ^ 16) with 65536. change (2 ^ 24) with 16777216.
    f_equal; Z.div_mod_to_equations; lia. }
  split; [apply Hpix, Ha |].
  rewrite (Hpix a Ha). symmetry.
  replace (r + g * 2 ^ 8 + b * 2 ^ 16)
    with (r + g * 2 ^ 8 + b * 2 ^ 16 + 0 * 2 ^ 24) by lia.
  apply Hpix. lia.
Qed.

Lemma pixel_of_bytes_witness :
  pixel_of (0x11 + 0x22 * 2 ^ 8 + 0x33 * 2 ^ 16 + 0xFF * 2 ^ 24)
  = mkPixel 0x11 0x22 0x33
  /\ pixel_of (0x11 + 0x22 * 2 ^ 8 + 0x33 * 2 ^ 16 + 0xFF * 2 ^ 24)
     = pixel_of (0x11 + 0x22 * 2 ^ 8 + 0x33 * 2 ^ 16).
Proof. apply (pixel_of_bytes 0x11 0x22 0x33 0xFF); lia. Defined.

(** ** The quad of [drawScreen] *)

(** X4: the quad is defined for screen rotations 0, 1 and 2 and for no
    other; for each of the three it has the corners of the target rectangle
    in the same order, and their texture coordinates are the four corners
    of the texture in cyclic order: unrotated for 0, and turned by one
    corner in opposite directions for 1 and 2, so the texture is never
    mirrored and never cut. *)
Theorem drawScreen_quad_rotation (screenRotation x y w h : Z) :
  (0 <= screenRotation <= 2 ->
   exists quad : list ((Z * Z) * (Z * Z)),
     drawScreen_quad screenRotation x y w h = Some quad
     /\ map snd quad = [(x + w, y + h); (x, y + h); (x, y); (x + w, y)]
     /\ map fst quad
        = rotate (if screenRotation =? 1 then 3
                  else if screenRotation =? 2 then 1 else 0)
            [(1, 1); (0, 1); (0, 0); (1, 0)])
  /\ (screenRotation < 0 \/ 2 < screenRotation ->
      drawScreen_quad screenRotation x y w h = None).
Proof.
  split.
  - intros Hr.
    assert (Hc : screenRotation = 0 \/ screenRotation = 1 \/ screenRotation = 2)
      by lia.
    destruct Hc as [-> | [-> | ->]]; eexists; repeat split.
  - intros [Hlo | Hhi]; unfold drawScreen_quad, at_index.
    + replace (0 <=? screenRotation) with false
        by (symmetry; apply Z.leb_gt; lia).
      reflexivity.
    + replace (0 <=? screenRotation) with true
        by (symmetry; apply Z.leb_le; lia).
      rewrite (lookup_ge_None_2 texCoords (Z.to_nat screenRotation))
        by (simpl; lia).
      reflexivity.
Qed.

(** ** Paint events *)

Lemma fetches_app (a b : list Call) : fetches (a ++ b) = (fetches a + fetches b)%nat.
Proof. unfold fetches. rewrite filter_app, length_app. reflexivity. Qed.

Section CanvasFacts.
Context {Layout : Type} `{ScreenLayout Layout} `{NooFrame Layout}.
Implicit Types (c : NooCanvas Layout) (s : Settings) (k : CoreFrame).

Lemma fetches_draw_screens s c : fetches (draw_screens s c) = 0%nat.
Proof. unfold draw_screens. destruct (gbaMode c); reflexivity. Qed.

Lemma draw_mode_same c : draw_mode (gbaMode c) c = ([], c).
Proof. unfold draw_mode. rewrite eqb_reflx. reflexivity. Qed.

(** A paint event that leaves the mode of the canvas alone. *)
Lemma draw_same_mode s core second c :
  finished c = false -> same_mode s (gbaMode c) core ->
  draw s core second c
  = match core with
    | None => ([], draw_rate second c)
    | Some k =>
        let r := draw_frame (gbaMode c) k c in
        (fst r ++ draw_screens s (snd r), draw_rate second (snd r))
    end.
Proof.
  intros Hfin Hmode. unfold draw. rewrite Hfin.
  destruct core as [k |]; [| reflexivity].
  simpl in Hmode. rewrite Hmode, draw_mode_same.
  destruct (draw_frame (gbaMode c) k c) as [calls c']. reflexivity.
Qed.

Lemma draw_frame_fields gba k c :
  let r := snd (draw_frame gba k c) in
  gbaMode r = gbaMode c /\ finished r = finished c
  /\ swapInterval r = swapInterval c /\ refreshRate r = refreshRate c
  /\ layout r = layout c.
Proof.
  unfold draw_frame. simpl.
  destruct (swapInterval c <=? frameCount c + 1); [destruct (ready k) |];
    repeat split.
Qed.

Lemma draw_rate_fields second c :
  let r := draw_rate second c in
  gbaMode r = gbaMode c /\ finished r = finished c
  /\ frameCount r = frameCount c /\ framebuffer r = framebuffer c
  /\ layout r = layout c
  /\ swapInterval r
     = (if second then Z.quot (refreshRate c + 1 + 5) 60 else swapInterval c)
  /\ refreshRate r = (if second then 0 else refreshRate c + 1).
Proof. unfold draw_rate. destruct second; repeat split. Qed.

(** One paint event with a frame ready: the core is asked when the count
    reaches the interval, and the count starts again. *)
Lemma draw_steady s e c :
  finished c = false -> steady s (gbaMode c) e ->
  let r := draw s (fst e) (snd e) c in
  gbaMode (snd r) = gbaMode c /\ finished (snd r) = false
  /\ swapInterval (snd r) = swapInterval c
  /\ (if swapInterval c <=? frameCount c + 1
      then frameCount (snd r) = 0 /\ fetches (fst r) = 1%nat
      else frameCount (snd r) = frameCount c + 1 /\ fetches (fst r) = 0%nat).
Proof.
  intros Hfin (k & -> & Hmode & Hready). cbn [fst snd].
  rewrite (draw_same_mode s (Some k) false c Hfin Hmode).
  cbv beta iota zeta. cbn [fst snd].
  destruct (draw_rate_fields false (snd (draw_frame (gbaMode c) k c)))
    as (Hg & Hf & Hfc & _ & _ & Hsw & _).
  destruct (draw_frame_fields (gbaMode c) k c) as (Hg' & Hf' & Hsw' & _).
  rewrite Hg, Hf, Hsw, Hfc, Hg', Hf', Hsw', fetches_app, fetches_draw_screens.
  repeat split; try assumption.
  unfold draw_frame. simpl.
  destruct (swapInterval c <=? frameCount c + 1); [rewrite Hready |];
    split; reflexivity.
Qed.

Lemma draws_cons s e events c :
  draws s (e :: events) c
  = (fst (draw s (fst e) (snd e) c)
     ++ fst (draws s events (snd (draw s (fst e) (snd e) c))),
     snd (draws s events (snd (draw s (fst e) (snd e) c)))).
Proof.
  destruct e as [core second]. cbn [draws fst snd].
  destruct (draw s core second c) as [calls c']. cbn [fst snd].
  destruct (draws s events c') as [rest c'']. reflexivity.
Qed.

(** The cycle of the frame count once it is below the interval [k], the
    swap interval or 1 when that is smaller. *)
Lemma fetch_cycle s events c (k : Z) :
  finished c = false ->
  Z.max (swapInterval c) 1 = k ->
  0 <= frameCount c < k ->
  Forall (steady s (gbaMode c)) events ->
  let r := draws s events c in
  let n := Z.of_nat (length events) in
  frameCount (snd r) = (frameCount c + n) mod k
  /\ Z.of_nat (fetches (fst r)) = (frameCount c + n) / k
  /\ swapInterval (snd r) = swapInterval c.
Proof.
  intros Hfin Hk Hfc Hsteady. revert c Hfin Hk Hfc Hsteady.
  induction events as [| e events IH]; intros c Hfin Hk Hfc Hsteady.
  - simpl. rewrite Z.add_0_r, Z.mod_small, Z.div_small by lia.
    repeat split.
  - apply Forall_cons in Hsteady as [He Hrest].
    rewrite draws_cons. cbn [fst snd].
    destruct (draw_steady s e c Hfin He) as (Hg & Hf & Hsw & Hstep).
    set (c' := snd (draw s (fst e) (snd e) c)) in *.
    rewrite <- Hg in Hrest.
    rewrite fetches_app, Nat2Z.inj_add.
    replace (Z.of_nat (length (e :: events)))
      with (1 + Z.of_nat (length events)) by (simpl length; lia).
    destruct (swapInterval c <=? frameCount c + 1) eqn:Hfull;
      [apply Z.leb_le in Hfull | apply Z.leb_gt in Hfull];
      destruct Hstep as [Hfc' Hfetch];
      (destruct (IH c' Hf) as (IHfc & IHfetch & IHsw);
       [rewrite Hsw; exact Hk | rewrite Hfc'; lia | exact Hrest |]);
      rewrite IHfc, IHfetch, IHsw, Hfc', Hsw, Hfetch.
    + assert (Hk' : frameCount c + 1 = k) by lia.
      replace (frameCount c + (1 + Z.of_nat (length events)))
        with (Z.of_nat (length events) + 1 * k) by lia.
      rewrite Z.mod_add, Z.div_add, !Z.add_0_l by lia.
      change (Z.of_nat 1) with 1.
      split; [reflexivity | split; [apply Z.add_comm | reflexivity]].
    + replace (frameCount c + (1 + Z.of_nat (length events)))
        with (frameCount c + 1 + Z.of_nat (length events)) by lia.
      change (Z.of_nat 0) with 0. rewrite Z.add_0_l.
      split; [reflexivity | split; reflexivity].
Qed.

(** X5: over a run of paint events at which the core is in the mode of the
    canvas and has a frame ready, and none of which is the one at which the
    second has elapsed, the canvas asks the core for a frame on every
    [k]-th event and on no other, where [k] is [swapInterval], or 1 when
    [swapInterval] is 0 or less (then every event asks).  A [frameCount]
    that has already reached the interval counts as [k - 1], so that the
    first event asks: with [waited] the smaller of [frameCount] and
    [k - 1], after [n] events the core was asked [(waited + n) / k] times
    and, for [n] at least 1, [frameCount] is [(waited + n) mod k]. *)
Theorem fetch_every_swap_interval s events c :
  finished c = false ->
  0 <= frameCount c ->
  Forall (steady s (gbaMode c)) events ->
  let r := draws s events c in
  let n := Z.of_nat (length events) in
  let k := Z.max (swapInterval c) 1 in
  let waited := Z.min (frameCount c) (k - 1) in
  Z.of_nat (fetches (fst r)) = (waited + n) / k
  /\ (events <> [] -> frameCount (snd r) = (waited + n) mod k)
  /\ swapInterval (snd r) = swapInterval c.
Proof.
  intros Hfin Hfc Hsteady. cbv zeta.
  set (k := Z.max (swapInterval c) 1).
  destruct events as [| e events].
  - simpl. rewrite Z.add_0_r, Z.div_small by lia.
    split; [reflexivity | split; [congruence | reflexivity]].
  - apply Forall_cons in Hsteady as [He Hrest].
    rewrite draws_cons. cbn [fst snd].
    destruct (draw_steady s e c Hfin He) as (Hg & Hf & Hsw & Hstep).
    set (c' := snd (draw s (fst e) (snd e) c)) in *.
    rewrite <- Hg in Hrest.
    rewrite fetches_app, Nat2Z.inj_add.
    replace (Z.of_nat (length (e :: events)))
      with (1 + Z.of_nat (length events)) by (simpl length; lia).
    destruct (swapInterval c <=? frameCount c + 1) eqn:Hfull;
      [apply Z.leb_le in Hfull | apply Z.leb_gt in Hfull];
      destruct Hstep as [Hfc' Hfetch];
      (destruct (fetch_cycle s events c' k Hf) as (Cfc & Cfetch & Csw);
       [rewrite Hsw; reflexivity | rewrite Hfc'; lia | exact Hrest |]);
      rewrite Cfc, Cfetch, Csw, Hfc', Hsw, Hfetch.
    + replace (Z.min (frameCount c) (k - 1)) with (k - 1) by lia.
      replace (k - 1 + (1 + Z.of_nat (length events)))
        with (Z.of_nat (length events) + 1 * k) by lia.
      rewrite Z.mod_add, Z.div_add, !Z.add_0_l by lia.
      change (Z.of_nat 1) with 1.
      split; [apply Z.add_comm | split; reflexivity].
    + replace (Z.min (frameCount c) (k - 1)) with (frameCount c) by lia.
      replace (frameCount c + (1 + Z.of_nat (length events)))
        with (frameCount c + 1 + Z.of_nat (length events)) by lia.
      change (Z.of_nat 0) with 0. rewrite Z.add_0_l.
      split; [reflexivity | split; reflexivity].
Qed.
End CanvasFacts.

Lemma fetch_every_swap_interval_witness :
  let frame := (Some (mkCoreFrame false true []), false) in
  let c := set_frameCount 5 sample_canvas in
  let r := draws (mkSettings false false)
             [frame; frame; frame; frame; frame] c in
  let n := Z.of_nat (length [frame; frame; frame; frame; frame]) in
  let k := Z.max (swapInterval c) 1 in
  let waited := Z.min (frameCount c) (k - 1) in
  Z.of_nat (fetches (fst r)) = (waited + n) / k
  /\ ([frame; frame; frame; frame; frame] <> [] ->
      frameCount (snd r) = (waited + n) mod k)
  /\ swapInterval (snd r) = swapInterval c.
Proof.
  apply (fetch_every_swap_interval (mkSettings false false)
           (replicate 5 (Some (mkCoreFrame false true []), false))
           (set_frameCount 5 sample_canvas)).
  - reflexivity.
  - simpl. lia.
  - repeat constructor; exists (mkCoreFrame false true []); repeat split.
Defined.

Section CanvasRate.
Context {Layout : Type} `{ScreenLayout Layout} `{NooFrame Layout}.
Implicit Types (c : NooCanvas Layout) (s : Settings).

Lemma draw_same_mode_rate s core second c :
  finished c = false -> same_mode s (gbaMode c) core ->
  let r := snd (draw s core second c) in
  gbaMode r = gbaMode c /\ finished r = false
  /\ refreshRate r = (if second then 0 else refreshRate c + 1)
  /\ swapInterval r
     = (if second then Z.quot (refreshRate c + 1 + 5) 60 else swapInterval c).
Proof.
  intros Hfin Hmode. cbv zeta.
  rewrite (draw_same_mode s core second c Hfin Hmode).
  destruct core as [k |]; cbv beta iota zeta; cbn [fst snd].
  - destruct (draw_rate_fields second (snd (draw_frame (gbaMode c) k c)))
      as (Hg & Hf & _ & _ & _ & Hsw & Hr).
    destruct (draw_frame_fields (gbaMode c) k c) as (Hg' & Hf' & Hsw' & Hr' & _).
    rewrite Hg, Hf, Hsw, Hr, Hg', Hf', Hsw', Hr'. repeat split. exact Hfin.
  - destruct (draw_rate_fields second c) as (Hg & Hf & _ & _ & _ & Hsw & Hr).
    rewrite Hg, Hf, Hsw, Hr. repeat split. exact Hfin.
Qed.

Lemma draws_count_rate s cores c :
  finished c = false -> Forall (same_mode s (gbaMode c)) cores ->
  let r := snd (draws s (map (fun core => (core, false)) cores) c) in
  gbaMode r = gbaMode c /\ finished r = false
  /\ refreshRate r = refreshRate c + Z.of_nat (length cores).
Proof.
  revert c. induction cores as [| core cores IH]; intros c Hfin Hall.
  - simpl. repeat split; [exact Hfin | lia].
  - apply Forall_cons in Hall as [Hcore Hrest].
    cbv zeta. cbn [map]. rewrite draws_cons. cbn [fst snd].
    destruct (draw_same_mode_rate s core false c Hfin Hcore)
      as (Hg & Hf & Hr & _).
    rewrite <- Hg in Hrest.
    destruct (IH _ Hf Hrest) as (IHg & IHf & IHr).
    rewrite IHg, IHf, IHr, Hg, Hr. repeat split. simpl length. lia.
Qed.

(** X6: a second in which the canvas is painted [n] times, the last time
    as the second ends, leaves [swapInterval] at [(n + 5) / 60] and the
    count at 0: a display refreshing [60 m] times a second, up to 5 fewer
    and up to 54 more, gives the interval [m]. *)
Theorem swap_interval_of_refresh_rate s cores core c :
  finished c = false ->
  0 <= refreshRate c ->
  Forall (same_mode s (gbaMode c)) cores ->
  same_mode s (gbaMode c) core ->
  let before := snd (draws s (map (fun core => (core, false)) cores) c) in
  let r := snd (draw s core true before) in
  let n := refreshRate c + Z.of_nat (length cores) + 1 in
  swapInterval r = Z.quot (n + 5) 60
  /\ refreshRate r = 0
  /\ (forall m : Z, 60 * m - 5 <= n <= 60 * m + 54 -> swapInterval r = m).
Proof.
  intros Hfin Hrate Hall Hcore. cbv zeta.
  destruct (draws_count_rate s cores c Hfin Hall) as (Hg & Hf & Hr).
  rewrite <- Hg in Hcore.
  destruct (draw_same_mode_rate s core true _ Hf Hcore) as (_ & _ & Hr' & Hsw).
  rewrite Hsw, Hr', Hr.
  split; [reflexivity |]. split; [reflexivity |].
  intros m Hm. rewrite Z.quot_div_nonneg by lia.
  symmetry. apply (Z.div_unique _ 60 m
    (refreshRate c + Z.of_nat (length cores) + 1 + 5 - 60 * m)); lia.
Qed.
End CanvasRate.

Lemma swap_interval_of_refresh_rate_witness :
  let c := set_refreshRate 117 sample_canvas in
  let before := snd (draws (mkSettings false false)
                       (map (fun core => (core, false)) [None; None]) c) in
  let r := snd (draw (mkSettings false false) None true before) in
  let n := refreshRate c + Z.of_nat (length [@None CoreFrame; None]) + 1 in
  swapInterval r = Z.quot (n + 5) 60
  /\ refreshRate r = 0
  /\ (forall m : Z, 60 * m - 5 <= n <= 60 * m + 54 -> swapInterval r = m).
Proof.
  apply (swap_interval_of_refresh_rate (mkSettings false false)
           [None; None] None (set_refreshRate 117 sample_canvas)).
  - reflexivity.
  - simpl. lia.
  - repeat constructor.
  - exact I.
Defined.

(** ** The framebuffer of [draw] *)

Lemma at_index_drop (fb : list Z) (offset index : Z) :
  0 <= offset -> 0 <= index ->
  at_index (drop (Z.to_nat offset) fb) index = at_index fb (offset + index).
Proof.
  intros Ho Hi. unfold at_index.
  replace (0 <=? index) with true by (symmetry; apply Z.leb_le; lia).
  replace (0 <=? offset + index) with true by (symmetry; apply Z.leb_le; lia).
  rewrite lookup_drop. f_equal. lia.
Qed.

Lemma screen_bitmap_is_Some (fb : list Z) (x y w h wb hb offset : Z) :
  0 < wb -> 0 < hb -> 0 <= offset ->
  (is_Some (screen_bitmap fb (DrawScreen x y w h wb hb offset))
   <-> offset + wb * hb <= Z.of_nat (length fb)).
Proof.
  intros Hwb Hhb Ho. cbn [screen_bitmap].
  rewrite bitmap_is_Some, length_drop by assumption. nia.
Qed.

Section CanvasScreens.
Context {Layout : Type} `{ScreenLayout Layout}.
Implicit Types (c : NooCanvas Layout) (s : Settings).

(** X7: the [drawScreen] calls of one paint event stay inside the
    framebuffer exactly when it holds both screens, 2 * 256 * 192 words
    (one screen of 240 * 160 in GBA mode), four times as many in high
    resolution. *)
Theorem draw_screens_in_framebuffer s c (fb : list Z) :
  Forall (fun call => is_Some (screen_bitmap fb call)) (draw_screens s c)
  <-> (if gbaMode c then 240 * 160 else 2 * (256 * 192))
      * (if highRes3D s then 4 else 1)
      <= Z.of_nat (length fb).
Proof.
  unfold draw_screens.
  destruct (gbaMode c), (highRes3D s);
    rewrite ?Forall_cons, Forall_nil;
    rewrite ?screen_bitmap_is_Some by (vm_compute; congruence);
    match goal with
    | |- context [Z.shiftl ?a ?b] =>
        repeat match goal with
          | |- context [Z.shiftl ?a ?b] =>
              let v := eval vm_compute in (Z.shiftl a b) in
              change (Z.shiftl a b) with v
          end
    end; lia.
Qed.

(** X8: outside GBA mode a paint event draws two screens of the same
    size from the framebuffer, the top one from its start and the bottom
    one from the word after the last word of the top one: pixel
    [(i, j)] of the top screen is word [i * wb + j], and pixel [(i, j)]
    of the bottom screen is word [wb * hb + i * wb + j]. *)
Theorem draw_screens_adjacent s c (fb : list Z) :
  gbaMode c = false ->
  let wb := if highRes3D s then 512 else 256 in
  let hb := if highRes3D s then 384 else 192 in
  2 * (wb * hb) <= Z.of_nat (length fb) ->
  exists top bottom : list (list Pixel),
    map (screen_bitmap fb) (draw_screens s c) = [Some top; Some bottom]
    /\ (forall i j : Z,
          0 <= i < hb -> 0 <= j < wb ->
          exists color color' : Z,
            at_index fb (i * wb + j) = Some color
            /\ pixel_at top i j = Some (pixel_of color)
            /\ at_index fb (wb * hb + (i * wb + j)) = Some color'
            /\ pixel_at bottom i j = Some (pixel_of color')).
Proof.
  intros Hmode wb hb Hlen. unfold draw_screens. rewrite Hmode.
  cbn [map screen_bitmap].
  assert (Hw : Z.shiftl 256 (if highRes3D s then 1 else 0) = wb)
    by (subst wb; destruct (highRes3D s); reflexivity).
  assert (Hh : Z.shiftl 192 (if highRes3D s then 1 else 0) = hb)
    by (subst hb; destruct (highRes3D s); reflexivity).
  assert (Ho : Z.shiftl (256 * 192) ((if highRes3D s then 1 else 0) * 2)
               = wb * hb)
    by (subst wb hb; destruct (highRes3D s); reflexivity).
  rewrite Hw, Hh, Ho.
  assert (Hpos : 0 < wb /\ 0 < hb) by (subst wb hb; destruct (highRes3D s); lia).
  destruct (bitmap_Some wb hb (drop (Z.to_nat 0) fb)) as (top & Htop & _ & _ & Hpt);
    [lia | lia | rewrite length_drop; nia |].
  destruct (bitmap_Some wb hb (drop (Z.to_nat (wb * hb)) fb))
    as (bottom & Hbot & _ & _ & Hpb); [lia | lia | rewrite length_drop; nia |].
  exists top, bottom. rewrite Htop, Hbot. split; [reflexivity |].
  intros i j Hi Hj.
  destruct (Hpt i j Hi Hj) as (color & Hc & Hp).
  destruct (Hpb i j Hi Hj) as (color' & Hc' & Hp').
  rewrite at_index_drop in Hc, Hc' by nia.
  exists color, color'. repeat split; assumption.
Qed.
End CanvasScreens.

Lemma draw_screens_adjacent_witness :
  let fb := replicate (2 * (256 * 192)) 0x00FF00 in
  let wb := if highRes3D (mkSettings false false) then 512 else 256 in
  let hb := if highRes3D (mkSettings false false) then 384 else 192 in
  exists top bottom : list (list Pixel),
    map (screen_bitmap fb) (draw_screens (mkSettings false false) sample_canvas)
    = [Some top; Some bottom]
    /\ (forall i j : Z,
          0 <= i < hb -> 0 <= j < wb ->
          exists color color' : Z,
            at_index fb (i * wb + j) = Some color
            /\ pixel_at top i j = Some (pixel_of color)
            /\ at_index fb (wb * hb + (i * wb + j)) = Some color'
            /\ pixel_at bottom i j = Some (pixel_of color')).
Proof.
  apply (draw_screens_adjacent (mkSettings false false) sample_canvas
           (replicate (2 * (256 * 192)) 0x00FF00)).
  - reflexivity.
  - rewrite length_replicate. simpl highRes3D. cbv iota. lia.
Defined.

(** ** Size events *)

Section CanvasResize.
Context {Layout : Type} `{ScreenLayout Layout}.
Implicit Types (c : NooCanvas Layout).

Lemma resizes_cons size sizes c :
  resizes (size :: sizes) c
  = (fst (resize size c) ++ fst (resizes sizes (snd (resize size c))),
     snd (resizes sizes (snd (resize size c)))).
Proof.
  cbn [resizes]. destruct (resize size c) as [calls c']. cbn [fst snd].
  destruct (resizes sizes c') as [rest c'']. reflexivity.
Qed.

Lemma resize_step size c :
  let r := resize size c in
  let l := update (fst size) (snd size) (gbaMode c) (layout c) in
  layout (snd r) = l
  /\ sizeReset (snd r) = (if sizeReset c =? 0 then 0 else sizeReset c - 1)
  /\ fst r = [ if sizeReset c =? 0
               then SetMinClientSize (minWidth l) (minHeight l)
               else SetMinClientSize 0 0 ].
Proof.
  unfold resize. cbn. destruct (sizeReset c =? 0) eqn:Hz; repeat split.
  apply Z.eqb_eq in Hz. lia.
Qed.

End CanvasResize.


(** ** Key events *)

Lemma key_loop_filter (handler : Z -> Call) (keyBinds : Z -> Z) (keyCode : Z)
    (n : nat) (i : Z) :
  key_loop handler keyBinds keyCode i n
  = map handler
      (filter (fun k => keyBinds k = keyCode) (seqZ i (Z.of_nat n))).
Proof.
  revert i. induction n as [| n IH]; intros i; [reflexivity |].
  cbn [key_loop]. rewrite IH, (seqZ_cons i (Z.of_nat (S n))) by lia.
  replace (Z.pred (Z.of_nat (S n))) with (Z.of_nat n) by lia.
  replace (Z.succ i) with (i + 1) by lia.
  destruct (keyCode =? keyBinds i) eqn:Hk;
    [apply Z.eqb_eq in Hk | apply Z.eqb_neq in Hk].
  - rewrite filter_cons_True by congruence. reflexivity.
  - rewrite filter_cons_False by congruence. reflexivity.
Qed.

(** X10: a key-down event presses the keys whose bind is the key code of
    the event, each once and in the order of their indices, and no other
    key; a key code bound to several keys presses each of them, one bound
    to none presses nothing; the key-up event releases the same keys. *)
Theorem pressKey_bound_keys (MAX_KEYS : Z) (keyBinds : Z -> Z) (keyCode : Z) :
  let bound := filter (fun k => keyBinds k = keyCode) (seqZ 0 MAX_KEYS) in
  pressKey MAX_KEYS keyBinds keyCode = map PressKey bound
  /\ releaseKey MAX_KEYS keyBinds keyCode = map ReleaseKey bound
  /\ NoDup bound
  /\ (forall i : Z,
        In (PressKey i) (pressKey MAX_KEYS keyBinds keyCode)
        <-> 0 <= i < MAX_KEYS /\ keyBinds i = keyCode).
Proof.
  cbv zeta.
  assert (Hseq : seqZ 0 (Z.of_nat (Z.to_nat MAX_KEYS)) = seqZ 0 MAX_KEYS).
  { destruct (Z_le_gt_dec 0 MAX_KEYS) as [Hle | Hgt].
    - rewrite Z2Nat.id by exact Hle. reflexivity.
    - rewrite (seqZ_nil 0 MAX_KEYS) by lia.
      replace (Z.to_nat MAX_KEYS) with 0%nat by lia. reflexivity. }
  unfold pressKey, releaseKey. rewrite !key_loop_filter, Hseq.
  split; [reflexivity |]. split; [reflexivity |].
  split; [apply NoDup_filter, NoDup_seqZ |].
  intros i. rewrite <- list_elem_of_In, list_elem_of_fmap. split.
  - intros (k & Heq & Hin). injection Heq as ->.
    apply list_elem_of_filter in Hin as [Hbind Hin].
    apply elem_of_seqZ in Hin. split; [lia | exact Hbind].
  - intros [Hi Hbind]. exists i. split; [reflexivity |].
    apply list_elem_of_filter. split; [exact Hbind |].
    apply elem_of_seqZ. lia.
Qed.

(** ** Mouse events *)

Section CanvasMouse.
Context {Layout : Type} `{ScreenLayout Layout}.
Implicit Types (c : NooCanvas Layout).

Lemma mouse_cases c (e : MouseEvent) :
  mouse c e = []
  \/ (exists x y : Z,
        (e = EvtLeftDown true true x y \/ e = EvtMotion true true x y)
        /\ mouse c e
           = [ InputPressScreen;
               SpiSetTouch (getTouchX (layout c) x y)
                 (getTouchY (layout c) x y) ])
  \/ (e = EvtLeftUp true /\ mouse c e = [InputReleaseScreen; SpiClearTouch]).
Proof.
  destruct e as [[] [] x y | [] [] x y | []]; cbn; eauto 10.
Qed.

(** X11: over any sequence of mouse events the core receives touch calls
    in pairs only, a screen press followed by a position or a screen
    release followed by a cleared position; and every position it
    receives is the layout's mapping of a button-down or motion event
    that came with the left button down while the emulation was
    running. *)
Theorem mouse_touch_calls c (events : list MouseEvent) :
  let calls := concat (map (mouse c) events) in
  well_paired calls = true
  /\ (forall tx ty : Z,
        In (SpiSetTouch tx ty) calls ->
        exists x y : Z,
          (In (EvtLeftDown true true x y) events
           \/ In (EvtMotion true true x y) events)
          /\ tx = getTouchX (layout c) x y
          /\ ty = getTouchY (layout c) x y).
Proof.
  cbv zeta. induction events as [| e events [IHp IHt]].
  - split; [reflexivity | intros tx ty []].
  - cbn [map concat].
    destruct (mouse_cases c e)
      as [-> | [(x & y & He & ->) | [He ->]]].
    + split; [exact IHp |]. intros tx ty Hin.
      destruct (IHt tx ty Hin) as (x & y & Hev & Hx & Hy).
      exists x, y. cbn [In]. tauto.
    + split; [exact IHp |]. intros tx ty Hin.
      cbn [app In] in Hin.
      destruct Hin as [Hin | [Hin | Hin]]; [discriminate | |].
      * injection Hin as <- <-. exists x, y. cbn [In].
        destruct He as [-> | ->]; tauto.
      * destruct (IHt tx ty Hin) as (x' & y' & Hev & Hx & Hy).
        exists x', y'. cbn [In]. tauto.
    + split; [exact IHp |]. intros tx ty Hin.
      cbn [app In] in Hin.
      destruct Hin as [Hin | [Hin | Hin]]; [discriminate | discriminate |].
      destruct (IHt tx ty Hin) as (x' & y' & Hev & Hx & Hy).
      exists x', y'. cbn [In]. tauto.
Qed.
End CanvasMouse.
